(** * Levels service: inheritance resolver, cache cascade and listing

    A shallow embedding of the [levels] and [level] packages of the editor
    backend (handlers [handleGet], [handlePost], [handleDelete],
    [handleQuery], helper [getLevel], the invalidation helpers, and the
    conversions between [JsonLevel] and [DatastoreLevel]).

    Modelling decisions.
    - A Go pointer field of [JsonLevel] is an [option]; [nil] is [None].
    - [int32] values are integers and [float32] values are their IEEE-754
      bit patterns; the program only stores and copies them.
    - A Go [map[string]float32] is a [gmap string float32].  Go ranges over
      a map in an unspecified order, so [ToDatastoreLevel] takes the range
      order as an argument.
    - All level keys have the kind [Level] and the one ancestor
      [LevelRoot], so a key is its name.  The datastore is a finite map
      from the key name to the stored struct, with a list of operations
      that fail.  A query returns keys in the order the map enumerates
      them.  [GetAll] returns the keys it has read together with its error,
      so a failing query over all levels hands back a prefix of the keys,
      as long as the list of faults says (none when it says nothing); the
      children query's keys are dropped by its caller when it fails.
    - Memcache is a finite map from the cache key to the cached item; a
      set stores and a delete removes; a set that memcache refuses and an
      item that it evicts on its own are not modelled.  JSON
      (de)serialisation of cached items is the identity on typed values.
    - A reply is the status code and the value written; whether it is
      written with [context.String] or with [context.JSON] is not modelled.
    - Every call to memcache or to the datastore is appended to a call log.
    - [getLevel] recurses along parent references without a bound, so the
      model takes fuel; [None] stands for a call that has not returned. *)

From stdpp Require Import gmap strings list fin_maps pretty.

Open Scope Z_scope.

Definition int32 : Type := Z.
Definition float32 : Type := Z.

(** ** Package [level] *)

Module JsonLevel.
Record t : Type := mk {
  Key : option string;
  Parent : option string;
  Name : option string;
  Rows : option int32;
  Columns : option int32;
  Health : option int32;
  Duration : option int32;
  ComboTimer : option float32;
  UnitDelayMultiplier : option float32;
  MaxActiveUnits : option int32;
  SpawnsPerSecond : option float32;
  SpawnFrequency : option (gmap string float32)
}.
End JsonLevel.

Record datastoreSpawnFrequency : Type := mkSpawn {
  UnitType : string;
  UnitSpawnFrequency : float32
}.

Module DatastoreLevel.
Record t : Type := mk {
  Key : string;
  HasKey : bool;
  Parent : string;
  HasParent : bool;
  Name : string;
  HasName : bool;
  Rows : int32;
  HasRows : bool;
  Columns : int32;
  HasColumns : bool;
  Health : int32;
  HasHealth : bool;
  Duration : int32;
  HasDuration : bool;
  ComboTimer : float32;
  HasComboTimer : bool;
  UnitDelayMultiplier : float32;
  HasUnitDelayMultiplier : bool;
  MaxActiveUnits : int32;
  HasMaxActiveUnits : bool;
  SpawnsPerSecond : float32;
  HasSpawnsPerSecond : bool;
  SpawnFrequency : list datastoreSpawnFrequency;
  HasSpawnFrequency : bool
}.

(** The zero value [&DatastoreLevel{}]. *)
Definition zero : t :=
  mk "" false "" false "" false 0 false 0 false 0 false 0 false
     0 false 0 false 0 false 0 false [] false.
End DatastoreLevel.

Import DatastoreLevel.

(** One [if !level.HasX && parentLevel.HasX { level.HasX = true;
    level.X = parentLevel.X }] of [MergeParentProperties]: the flag and the
    value after the statement. *)
Definition mergedFlag (has hasParent : bool) : bool :=
  if negb has && hasParent then true else has.

Definition mergedValue {A : Type} (has hasParent : bool) (own parent : A) : A :=
  if negb has && hasParent then parent else own.

(** [MergeParentProperties]: the ten statements touch ten different pairs
    of fields and read nothing another one writes, so the struct after the
    last statement is given field by field. *)
Definition MergeParentProperties (level parentLevel : DatastoreLevel.t) : DatastoreLevel.t :=
  {| Key := Key level;
     HasKey := HasKey level;
     Parent := Parent level;
     HasParent := HasParent level;
     Name := mergedValue (HasName level) (HasName parentLevel) (Name level) (Name parentLevel);
     HasName := mergedFlag (HasName level) (HasName parentLevel);
     Rows := mergedValue (HasRows level) (HasRows parentLevel) (Rows level) (Rows parentLevel);
     HasRows := mergedFlag (HasRows level) (HasRows parentLevel);
     Columns :=
       mergedValue (HasColumns level) (HasColumns parentLevel) (Columns level) (Columns parentLevel);
     HasColumns := mergedFlag (HasColumns level) (HasColumns parentLevel);
     Health :=
       mergedValue (HasHealth level) (HasHealth parentLevel) (Health level) (Health parentLevel);
     HasHealth := mergedFlag (HasHealth level) (HasHealth parentLevel);
     Duration :=
       mergedValue (HasDuration level) (HasDuration parentLevel)
                   (Duration level) (Duration parentLevel);
     HasDuration := mergedFlag (HasDuration level) (HasDuration parentLevel);
     ComboTimer :=
       mergedValue (HasComboTimer level) (HasComboTimer parentLevel)
                   (ComboTimer level) (ComboTimer parentLevel);
     HasComboTimer := mergedFlag (HasComboTimer level) (HasComboTimer parentLevel);
     UnitDelayMultiplier :=
       mergedValue (HasUnitDelayMultiplier level) (HasUnitDelayMultiplier parentLevel)
                   (UnitDelayMultiplier level) (UnitDelayMultiplier parentLevel);
     HasUnitDelayMultiplier :=
       mergedFlag (HasUnitDelayMultiplier level) (HasUnitDelayMultiplier parentLevel);
     MaxActiveUnits :=
       mergedValue (HasMaxActiveUnits level) (HasMaxActiveUnits parentLevel)
                   (MaxActiveUnits level) (MaxActiveUnits parentLevel);
     HasMaxActiveUnits := mergedFlag (HasMaxActiveUnits level) (HasMaxActiveUnits parentLevel);
     SpawnsPerSecond :=
       mergedValue (HasSpawnsPerSecond level) (HasSpawnsPerSecond parentLevel)
                   (SpawnsPerSecond level) (SpawnsPerSecond parentLevel);
     HasSpawnsPerSecond := mergedFlag (HasSpawnsPerSecond level) (HasSpawnsPerSecond parentLevel);
     SpawnFrequency :=
       mergedValue (HasSpawnFrequency level) (HasSpawnFrequency parentLevel)
                   (SpawnFrequency level) (SpawnFrequency parentLevel);
     HasSpawnFrequency := mergedFlag (HasSpawnFrequency level) (HasSpawnFrequency parentLevel) |}.

(** [if p != nil { result.X = *p; result.HasX = true }] on a zero struct. *)
Definition derefOr {A : Type} (zero : A) (p : option A) : A :=
  match p with Some v => v | None => zero end.

Definition isSet {A : Type} (p : option A) : bool :=
  match p with Some _ => true | None => false end.

(** The loop [for key, value := range *level.SpawnFrequency] appending one
    element per entry, over the entries in the order [range] visits them. *)
Definition spawnElements (entries : list (string * float32)) : list datastoreSpawnFrequency :=
  fold_left (fun acc kv => acc ++ [mkSpawn kv.1 kv.2]) entries [].

Definition ToDatastoreLevel
    (range : gmap string float32 -> list (string * float32))
    (level : JsonLevel.t) : DatastoreLevel.t :=
  {| Key := derefOr "" (JsonLevel.Key level);
     HasKey := isSet (JsonLevel.Key level);
     Parent := derefOr "" (JsonLevel.Parent level);
     HasParent := isSet (JsonLevel.Parent level);
     Name := derefOr "" (JsonLevel.Name level);
     HasName := isSet (JsonLevel.Name level);
     Rows := derefOr 0 (JsonLevel.Rows level);
     HasRows := isSet (JsonLevel.Rows level);
     Columns := derefOr 0 (JsonLevel.Columns level);
     HasColumns := isSet (JsonLevel.Columns level);
     Health := derefOr 0 (JsonLevel.Health level);
     HasHealth := isSet (JsonLevel.Health level);
     Duration := derefOr 0 (JsonLevel.Duration level);
     HasDuration := isSet (JsonLevel.Duration level);
     ComboTimer := derefOr 0 (JsonLevel.ComboTimer level);
     HasComboTimer := isSet (JsonLevel.ComboTimer level);
     UnitDelayMultiplier := derefOr 0 (JsonLevel.UnitDelayMultiplier level);
     HasUnitDelayMultiplier := isSet (JsonLevel.UnitDelayMultiplier level);
     MaxActiveUnits := derefOr 0 (JsonLevel.MaxActiveUnits level);
     HasMaxActiveUnits := isSet (JsonLevel.MaxActiveUnits level);
     SpawnsPerSecond := derefOr 0 (JsonLevel.SpawnsPerSecond level);
     HasSpawnsPerSecond := isSet (JsonLevel.SpawnsPerSecond level);
     SpawnFrequency :=
       match JsonLevel.SpawnFrequency level with
       | Some m => spawnElements (range m)
       | None => []
       end;
     HasSpawnFrequency := isSet (JsonLevel.SpawnFrequency level) |}.

(** [if level.HasX == true { result.X = new(T); *result.X = level.X }]. *)
Definition ptrIf {A : Type} (has : bool) (v : A) : option A :=
  if has then Some v else None.

(** The loop [spawnFrequency[element.UnitType] = element.SpawnFrequency]
    over the slice, starting from [make(map[string]float32)]. *)
Definition spawnMap (elements : list datastoreSpawnFrequency) : gmap string float32 :=
  fold_left (fun m e => <[UnitType e := UnitSpawnFrequency e]> m) elements ∅.

Definition ToJsonLevel (level : DatastoreLevel.t) : JsonLevel.t :=
  {| JsonLevel.Key := ptrIf (HasKey level) (Key level);
     JsonLevel.Parent := ptrIf (HasParent level) (Parent level);
     JsonLevel.Name := ptrIf (HasName level) (Name level);
     JsonLevel.Rows := ptrIf (HasRows level) (Rows level);
     JsonLevel.Columns := ptrIf (HasColumns level) (Columns level);
     JsonLevel.Health := ptrIf (HasHealth level) (Health level);
     JsonLevel.Duration := ptrIf (HasDuration level) (Duration level);
     JsonLevel.ComboTimer := ptrIf (HasComboTimer level) (ComboTimer level);
     JsonLevel.UnitDelayMultiplier :=
       ptrIf (HasUnitDelayMultiplier level) (UnitDelayMultiplier level);
     JsonLevel.MaxActiveUnits := ptrIf (HasMaxActiveUnits level) (MaxActiveUnits level);
     JsonLevel.SpawnsPerSecond := ptrIf (HasSpawnsPerSecond level) (SpawnsPerSecond level);
     JsonLevel.SpawnFrequency :=
       if HasSpawnFrequency level then Some (spawnMap (SpawnFrequency level)) else None |}.

(** ** The external services: datastore and memcache *)

(** Go [error] values the handlers tell apart. *)
Inductive error : Type :=
| ErrNoSuchEntity
| ErrCacheMiss
| ErrUnmarshal
| ErrDatastore.

(** What a handler writes to the HTTP response. *)
Inductive ResponseBody : Type :=
| BodyNil
| BodyText (text : string)
| BodyError (text : string) (err : error)
| BodyLevel (level : JsonLevel.t)
| BodyLevels (levels : list JsonLevel.t).

Record responseCacheEntry : Type := mkResponse {
  Path : string;
  Code : Z;
  Response : ResponseBody
}.

Definition levelCacheEntry : Type := DatastoreLevel.t.

(** The bytes memcache holds under a key: the marshalled form of one of
    the two cached structs. *)
Inductive blob : Type :=
| LevelBlob (entry : levelCacheEntry)
| ResponseBlob (entry : responseCacheEntry).

(** The datastore operations.  In a list of faults [DsQueryAllRead limit
    read] is not a fault of its own: it says that the query [DsQueryAll
    limit], when it fails, has read [read] keys by then. *)
Inductive DsOp : Type :=
| DsGet (key : string)
| DsPut (key : string)
| DsDelete (key : string)
| DsQueryChildren (parentId : string)
| DsQueryAll (limit : nat)
| DsQueryAllRead (limit read : nat).

Inductive Call : Type :=
| Datastore (op : DsOp)
| MemcacheGet (key : string)
| MemcacheSet (key : string)
| MemcacheDelete (key : string).

#[global] Instance DsOp_eq_dec : EqDecision DsOp.
Proof. solve_decision. Defined.

#[global] Instance Call_eq_dec : EqDecision Call.
Proof. solve_decision. Defined.

Record World : Type := mkWorld {
  datastore : gmap string DatastoreLevel.t;
  failing : list DsOp;
  memcache : gmap string blob;
  calls : list Call
}.

Definition logCall (c : Call) (w : World) : World :=
  mkWorld (datastore w) (failing w) (memcache w) (calls w ++ [c]).

Definition setMemcache (m : gmap string blob) (w : World) : World :=
  mkWorld (datastore w) (failing w) m (calls w).

Definition setDatastore (s : gmap string DatastoreLevel.t) (w : World) : World :=
  mkWorld s (failing w) (memcache w) (calls w).

Definition fails (op : DsOp) (w : World) : bool := bool_decide (op ∈ failing w).

(** Computations over the two services; [None] is a call that has not
    returned within the fuel. *)
Definition M (A : Type) : Type := World -> option (A * World).

Definition ret {A : Type} (a : A) : M A := fun w => Some (a, w).

Definition bind {A B : Type} (m : M A) (k : A -> M B) : M B :=
  fun w => match m w with
           | Some (a, w') => k a w'
           | None => None
           end.

Definition diverge {A : Type} : M A := fun _ => None.

Notation "'do' x <~ m ; k" := (bind m (fun x => k))
  (at level 10, x name, m at level 100, k at level 200, only parsing).

(** [memcache.Get]: the item, or [ErrCacheMiss]. *)
Definition memcacheGet (key : string) : M (error + blob) :=
  fun w =>
    Some (match memcache w !! key with
          | Some b => inr b
          | None => inl ErrCacheMiss
          end, logCall (MemcacheGet key) w).

(** [memcache.Set], which here always stores. *)
Definition memcacheSet (key : string) (value : blob) : M (option error) :=
  fun w => Some (None, logCall (MemcacheSet key) (setMemcache (<[key := value]> (memcache w)) w)).

(** [memcache.Delete]: [ErrCacheMiss] when the key is not cached. *)
Definition memcacheDelete (key : string) : M (option error) :=
  fun w =>
    Some (match memcache w !! key with
          | Some _ => None
          | None => Some ErrCacheMiss
          end, logCall (MemcacheDelete key) (setMemcache (delete key (memcache w)) w)).

(** [datastore.Get] into a struct. *)
Definition datastoreGet (key : string) : M (error + DatastoreLevel.t) :=
  fun w =>
    Some (if fails (DsGet key) w then inl ErrDatastore
          else match datastore w !! key with
               | Some e => inr e
               | None => inl ErrNoSuchEntity
               end, logCall (Datastore (DsGet key)) w).

(** [datastore.Put]. *)
Definition datastorePut (key : string) (src : DatastoreLevel.t) : M (option error) :=
  fun w =>
    if fails (DsPut key) w then Some (Some ErrDatastore, logCall (Datastore (DsPut key)) w)
    else Some (None, logCall (Datastore (DsPut key))
                             (setDatastore (<[key := src]> (datastore w)) w)).

(** [datastore.Delete]; deleting an absent entity is not an error. *)
Definition datastoreDelete (key : string) : M (option error) :=
  fun w =>
    if fails (DsDelete key) w then Some (Some ErrDatastore, logCall (Datastore (DsDelete key)) w)
    else Some (None, logCall (Datastore (DsDelete key))
                             (setDatastore (delete key (datastore w)) w)).

(** The key names of all entities of the kind, in the order the datastore
    returns them. *)
Definition storedKeys (w : World) : list string := (map_to_list (datastore w)).*1.

(** [NewQuery(kind).Ancestor(root).Filter("Parent =", parentId).KeysOnly()]
    followed by [GetAll]: the keys, and the error.  The one caller returns
    at once when the query fails, so a failing query is given no keys. *)
Definition queryChildren (parentId : string) : M (list string * option error) :=
  fun w =>
    Some (if fails (DsQueryChildren parentId) w then ([], Some ErrDatastore)
          else ((filter (fun kv => Parent kv.2 = parentId) (map_to_list (datastore w))).*1, None),
          logCall (Datastore (DsQueryChildren parentId)) w).

(** How many keys a failing [GetAll] with this limit had read when it
    failed, as the list of faults says; none when it says nothing. *)
Fixpoint readBeforeFailure (limit : nat) (faults : list DsOp) : nat :=
  match faults with
  | [] => 0%nat
  | DsQueryAllRead l read :: faults =>
    if (l =? limit)%nat then read else readBeforeFailure limit faults
  | _ :: faults => readBeforeFailure limit faults
  end.

(** The keys [GetAll] hands back for the query over all levels: at most
    [limit] of them, and of these only the ones read so far when the query
    fails. *)
Definition enumerated (limit : nat) (w : World) : list string :=
  let keys := take limit (storedKeys w) in
  if fails (DsQueryAll limit) w then take (readBeforeFailure limit (failing w)) keys
  else keys.

(** [NewQuery(kind).Ancestor(root).Limit(limit).KeysOnly()] followed by
    [GetAll]: [GetAll] returns the keys appended so far next to its
    error. *)
Definition queryAll (limit : nat) : M (list string * option error) :=
  fun w =>
    Some ((enumerated limit w,
           if fails (DsQueryAll limit) w then Some ErrDatastore else None),
          logCall (Datastore (DsQueryAll limit)) w).

(** ** Package [cache] *)

Class CacheItem (A : Type) : Type := {
  GetCacheKey : A -> string;
  MarshalBinary : A -> blob;
  UnmarshalBinary : blob -> A -> error + A
}.

(** [GetCachedResource]: on success [cacheItem] has been overwritten with
    the cached value.  No caller passes a nil item. *)
Definition GetCachedResource {A : Type} `{CacheItem A} (cacheItem : A) : M (error + A) :=
  do item <~ memcacheGet (GetCacheKey cacheItem) ;
  match item with
  | inl err => ret (inl err)
  | inr value => ret (UnmarshalBinary value cacheItem)
  end.

Definition CacheResource {A : Type} `{CacheItem A} (cacheItem : A) : M (option error) :=
  memcacheSet (GetCacheKey cacheItem) (MarshalBinary cacheItem).

Definition InvalidateCacheEntry {A : Type} `{CacheItem A} (cacheItem : A) : M (option error) :=
  memcacheDelete (GetCacheKey cacheItem).

(** ** Package [levels] *)

Definition kind : string := "Level".
Definition queryAllKey : string := "query:all@levels".

Definition StatusOK : Z := 200.
Definition StatusBadRequest : Z := 400.
Definition StatusNotFound : Z := 404.
Definition StatusInternalServerError : Z := 500.

(** The two kinds of cached struct.  Their keys start with [response:] and
    with [level:], so a key written for one kind is never read for the
    other; a blob of the other kind counts as one that does not
    unmarshal. *)
#[global] Instance responseCacheEntry_item : CacheItem responseCacheEntry := {|
  GetCacheKey entry := "response:" +:+ Path entry;
  MarshalBinary entry := ResponseBlob entry;
  UnmarshalBinary data entry :=
    match data with
    | ResponseBlob cached => inr cached
    | LevelBlob _ => inl ErrUnmarshal
    end
|}.

#[global] Instance levelCacheEntry_item : CacheItem levelCacheEntry := {|
  GetCacheKey entry := "level:" +:+ Key entry;
  MarshalBinary entry := LevelBlob entry;
  UnmarshalBinary data entry :=
    match data with
    | LevelBlob cached => inr cached
    | ResponseBlob _ => inl ErrUnmarshal
    end
|}.

(** [&levelCacheEntry{Key: levelId}]. *)
Definition levelEntryFor (levelId : string) : levelCacheEntry :=
  DatastoreLevel.mk levelId false "" false "" false 0 false 0 false 0 false 0 false
                    0 false 0 false 0 false 0 false [] false.

(** [&responseCacheEntry{Path: path}]. *)
Definition responseEntryFor (path : string) : responseCacheEntry :=
  mkResponse path 0 BodyNil.

Definition buildResourcePath (levelId : string) : string := "/levels/" +:+ levelId.

(** The condition [result.HasParent && len(result.Parent) > 0]. *)
Definition hasParentRef (result : DatastoreLevel.t) : bool :=
  HasParent result && (0 <? String.length (Parent result))%nat.

Fixpoint getLevel (fuel : nat) (levelId : string) : M (error + levelCacheEntry) :=
  match fuel with
  | O => diverge
  | S fuel =>
    do cached <~ GetCachedResource (levelEntryFor levelId) ;
    match cached with
    | inr result => ret (inr result)
    | inl _ =>
      do loaded <~ datastoreGet levelId ;
      match loaded with
      | inl err => ret (inl err)
      | inr result =>
        if hasParentRef result then
          do parent <~ getLevel fuel (Parent result) ;
          match parent with
          | inl err => ret (inl err)
          | inr parentLevel =>
            let result := MergeParentProperties result parentLevel in
            do _ <~ CacheResource result ;
            ret (inr result)
          end
        else
          do _ <~ CacheResource result ;
          ret (inr result)
      end
    end
  end.

Definition invalidateLevelCaches (levelId : string) : M unit :=
  do _ <~ InvalidateCacheEntry (responseEntryFor (buildResourcePath levelId)) ;
  do _ <~ InvalidateCacheEntry (levelEntryFor levelId) ;
  ret tt.

(** The loop [for _, element := range keys] of
    [invalidateChildLevelCaches]. *)
Fixpoint invalidateEach (keys : list string) : M unit :=
  match keys with
  | [] => ret tt
  | element :: keys =>
    do _ <~ invalidateLevelCaches element ;
    invalidateEach keys
  end.

Definition invalidateChildLevelCaches (parentId : string) : M unit :=
  do found <~ queryChildren parentId ;
  match found.2 with
  | Some _ => ret tt
  | None => invalidateEach found.1
  end.

Definition invalidateQueryCaches : M unit :=
  do _ <~ InvalidateCacheEntry (responseEntryFor queryAllKey) ;
  ret tt.

(** A handler's answer: status code and body. *)
Definition Reply : Type := Z * ResponseBody.

(** [handleGet] for the route [/levels/:id]: the URL path is
    [/levels/] followed by the id parameter.  The source writes the
    computed 404 as plain text and replays a cached entry as JSON; the
    reply below is the code and the value in both cases. *)
Definition handleGet (fuel : nat) (levelId : string) : M Reply :=
  let path := "/levels/" +:+ levelId in
  do cachedResponse <~ GetCachedResource (responseEntryFor path) ;
  match cachedResponse with
  | inr entry => ret (Code entry, Response entry)
  | inl _ =>
    do result <~ getLevel fuel levelId ;
    match result with
    | inl ErrNoSuchEntity =>
      let cacheEntry := mkResponse path StatusNotFound (BodyText "Level does not exist") in
      do _ <~ CacheResource cacheEntry ;
      ret (Code cacheEntry, Response cacheEntry)
    | inl err =>
      ret (StatusInternalServerError, BodyError "Could not retrieve the level: " err)
    | inr level =>
      let cacheEntry := mkResponse path StatusOK (BodyLevel (ToJsonLevel level)) in
      do _ <~ CacheResource cacheEntry ;
      ret (Code cacheEntry, Response cacheEntry)
    end
  end.

(** [level.Key = new(string); *level.Key = context.Param("id")]. *)
Definition withKey (id : string) (level : JsonLevel.t) : JsonLevel.t :=
  JsonLevel.mk (Some id) (JsonLevel.Parent level) (JsonLevel.Name level)
    (JsonLevel.Rows level) (JsonLevel.Columns level) (JsonLevel.Health level)
    (JsonLevel.Duration level) (JsonLevel.ComboTimer level)
    (JsonLevel.UnitDelayMultiplier level) (JsonLevel.MaxActiveUnits level)
    (JsonLevel.SpawnsPerSecond level) (JsonLevel.SpawnFrequency level).

(** [handlePost]; [body] is what [BindJSON] produced, [None] when it
    failed. *)
Definition handlePost (range : gmap string float32 -> list (string * float32))
    (id : string) (body : option JsonLevel.t) : M Reply :=
  match body with
  | None => ret (StatusBadRequest, BodyError "Failed to unmarshal the JSON: " ErrUnmarshal)
  | Some level =>
    let level := withKey id level in
    let dsLevel := ToDatastoreLevel range level in
    do err <~ datastorePut (Key dsLevel) dsLevel ;
    match err with
    | Some err => ret (StatusInternalServerError, BodyError "Failed to store the level: " err)
    | None =>
      do _ <~ invalidateLevelCaches (Key dsLevel) ;
      do _ <~ invalidateChildLevelCaches (Key dsLevel) ;
      do _ <~ invalidateQueryCaches ;
      ret (StatusOK, BodyNil)
    end
  end.

Definition handlePut (range : gmap string float32 -> list (string * float32))
    (id : string) (body : option JsonLevel.t) : M Reply :=
  handlePost range id body.

Definition handleDelete (levelId : string) : M Reply :=
  do err <~ datastoreDelete levelId ;
  match err with
  | Some err => ret (StatusInternalServerError, BodyError "Failed to delete the level: " err)
  | None =>
    do _ <~ invalidateLevelCaches levelId ;
    do _ <~ invalidateChildLevelCaches levelId ;
    do _ <~ invalidateQueryCaches ;
    ret (StatusOK, BodyNil)
  end.

(** The loop of [handleQuery] that loads each level by its key. *)
Fixpoint loadEach (fuel : nat) (keys : list string) (dsResults : list DatastoreLevel.t)
    : M (list DatastoreLevel.t) :=
  match keys with
  | [] => ret dsResults
  | element :: keys =>
    do resolved <~ getLevel fuel element ;
    match resolved with
    | inr resolvedLevel => loadEach fuel keys (dsResults ++ [resolvedLevel])
    | inl _ => loadEach fuel keys dsResults
    end
  end.

Definition handleQuery (fuel : nat) : M Reply :=
  do responseEntry <~ GetCachedResource (responseEntryFor queryAllKey) ;
  match responseEntry with
  | inr entry => ret (Code entry, Response entry)
  | inl _ =>
    do found <~ queryAll 100 ;
    do dsResults <~ loadEach fuel found.1 [] ;
    let response := ToJsonLevel <$> dsResults in
    let cacheEntry := mkResponse queryAllKey StatusOK (BodyLevels response) in
    do _ <~ CacheResource cacheEntry ;
    ret (Code cacheEntry, Response cacheEntry)
  end.

(** ** Notions the properties are stated with *)

(** The ten inheritable fields of a level; the key and the parent
    reference are not among them. *)
Inductive Field : Type :=
| FName
| FRows
| FColumns
| FHealth
| FDuration
| FComboTimer
| FUnitDelayMultiplier
| FMaxActiveUnits
| FSpawnsPerSecond
| FSpawnFrequency.

Inductive FieldValue : Type :=
| VString (s : string)
| VInt (n : int32)
| VFloat (x : float32)
| VSpawn (elements : list datastoreSpawnFrequency).

(** The value of a field when its presence flag is raised, [None] when the
    field is unset. *)
Definition fieldOf (f : Field) (d : DatastoreLevel.t) : option FieldValue :=
  match f with
  | FName => ptrIf (HasName d) (VString (Name d))
  | FRows => ptrIf (HasRows d) (VInt (Rows d))
  | FColumns => ptrIf (HasColumns d) (VInt (Columns d))
  | FHealth => ptrIf (HasHealth d) (VInt (Health d))
  | FDuration => ptrIf (HasDuration d) (VInt (Duration d))
  | FComboTimer => ptrIf (HasComboTimer d) (VFloat (ComboTimer d))
  | FUnitDelayMultiplier => ptrIf (HasUnitDelayMultiplier d) (VFloat (UnitDelayMultiplier d))
  | FMaxActiveUnits => ptrIf (HasMaxActiveUnits d) (VInt (MaxActiveUnits d))
  | FSpawnsPerSecond => ptrIf (HasSpawnsPerSecond d) (VFloat (SpawnsPerSecond d))
  | FSpawnFrequency => ptrIf (HasSpawnFrequency d) (VSpawn (SpawnFrequency d))
  end.

Definition allFields : list Field :=
  [FName; FRows; FColumns; FHealth; FDuration; FComboTimer; FUnitDelayMultiplier;
   FMaxActiveUnits; FSpawnsPerSecond; FSpawnFrequency].

(** At least one of the ten fields is unset. *)
Definition someFieldUnset (d : DatastoreLevel.t) : bool :=
  existsb (fun f => negb (isSet (fieldOf f d))) allFields.

(** The value of a field along a chain that starts at the entity and walks
    toward the root: that of the first member that sets it. *)
Fixpoint nearest (f : Field) (chain : list DatastoreLevel.t) : option FieldValue :=
  match chain with
  | [] => None
  | d :: ancestors =>
    match fieldOf f d with
    | Some v => Some v
    | None => nearest f ancestors
    end
  end.

(** [Chain s id ds]: in the store [s] the entity [id] and its ancestors,
    nearest first, are [ds]; every parent reference along the way names a
    stored entity and the last member has none. *)
Inductive Chain (s : gmap string DatastoreLevel.t) : string -> list DatastoreLevel.t -> Prop :=
| Chain_root id d :
    s !! id = Some d -> hasParentRef d = false -> Chain s id [d]
| Chain_step id d ds :
    s !! id = Some d -> hasParentRef d = true -> Chain s (Parent d) ds -> Chain s id (d :: ds).

(** [Dangling s id]: walking from [id] along parent references reaches an
    id that is not stored. *)
Inductive Dangling (s : gmap string DatastoreLevel.t) : string -> Prop :=
| Dangling_absent id :
    s !! id = None -> Dangling s id
| Dangling_step id d :
    s !! id = Some d -> hasParentRef d = true -> Dangling s (Parent d) -> Dangling s id.

(** [Ends s id n]: the walk from [id] stops within [n] parent hops, at a
    root or at an id that is not stored. *)
Inductive Ends (s : gmap string DatastoreLevel.t) : string -> nat -> Prop :=
| Ends_absent id n :
    s !! id = None -> Ends s id n
| Ends_root id d n :
    s !! id = Some d -> hasParentRef d = false -> Ends s id n
| Ends_step id d n :
    s !! id = Some d -> hasParentRef d = true -> Ends s (Parent d) n -> Ends s id (S n).

(** [OnChain s id k]: [k] is [id] or one of its ancestors in the store. *)
Inductive OnChain (s : gmap string DatastoreLevel.t) : string -> string -> Prop :=
| OnChain_here id : OnChain s id id
| OnChain_up id d k :
    s !! id = Some d -> hasParentRef d = true -> OnChain s (Parent d) k -> OnChain s id k.

(** [v] is the merged view of a chain: each field as [nearest] gives it,
    key and parent reference those of the chain's first member. *)
Definition IsMerge (chain : list DatastoreLevel.t) (v : DatastoreLevel.t) : Prop :=
  (forall f, fieldOf f v = nearest f chain) /\
  match chain with
  | [] => False
  | d :: _ =>
    Key v = Key d /\ HasKey v = HasKey d /\ Parent v = Parent d /\ HasParent v = HasParent d
  end.

Definition MergedView (s : gmap string DatastoreLevel.t) (id : string)
    (v : DatastoreLevel.t) : Prop :=
  exists ds, Chain s id ds /\ IsMerge ds v.

(** Every level entry of the cache is the merged view of its id in the
    current store. *)
Definition CacheCoherent (w : World) : Prop :=
  forall id v,
    memcache w !! ("level:" +:+ id) = Some (LevelBlob v) -> MergedView (datastore w) id v.

(** The level entries cached for [id] and for its ancestors are the merged
    views of their ids in the current store. *)
Definition ChainCoherent (w : World) (id : string) : Prop :=
  forall k v,
    OnChain (datastore w) id k ->
    memcache w !! ("level:" +:+ k) = Some (LevelBlob v) -> MergedView (datastore w) k v.

(** Every stored struct carries the key name it is stored under. *)
Definition StoreKeyed (s : gmap string DatastoreLevel.t) : Prop :=
  forall id d, s !! id = Some d -> Key d = id.

Definition NoGetFaults (w : World) : Prop :=
  forall id, fails (DsGet id) w = false.

(** Datastore reads of [id] and of its ancestors do not fail. *)
Definition ChainReadable (w : World) (id : string) : Prop :=
  forall k, OnChain (datastore w) id k -> fails (DsGet k) w = false.

(** The entity cache has nothing usable for [id]. *)
Definition levelMiss (id : string) (w : World) : Prop :=
  forall v, memcache w !! ("level:" +:+ id) <> Some (LevelBlob v).


(** The response cache has nothing usable for [path]. *)
Definition responseMiss (path : string) (w : World) : Prop :=
  forall e, memcache w !! ("response:" +:+ path) <> Some (ResponseBlob e).

(** What a listing over [keys] has to contain: the merged view of each key
    whose chain is complete, in the order of [keys]; nothing for a key
    whose chain dangles. *)
Inductive Resolved (s : gmap string DatastoreLevel.t)
    : list string -> list DatastoreLevel.t -> Prop :=
| Resolved_nil : Resolved s [] []
| Resolved_keep k ks v vs :
    MergedView s k v -> Resolved s ks vs -> Resolved s (k :: ks) (v :: vs)
| Resolved_skip k ks vs :
    Dangling s k -> Resolved s ks vs -> Resolved s (k :: ks) vs.

(** [Listed fuel keys w vs w']: resolving [keys] one after the other from
    the world [w] gives the levels [vs] and leaves the world [w'].  A key
    whose resolution succeeds contributes its level; a key whose resolution
    fails, with whatever error, contributes nothing; the next key is
    resolved in the world the previous one left. *)
Inductive Listed (fuel : nat) : list string -> World -> list DatastoreLevel.t -> World -> Prop :=
| Listed_nil w : Listed fuel [] w [] w
| Listed_keep k ks w v w1 vs w' :
    getLevel fuel k w = Some (inr v, w1) -> Listed fuel ks w1 vs w' ->
    Listed fuel (k :: ks) w (v :: vs) w'
| Listed_skip k ks w err w1 vs w' :
    getLevel fuel k w = Some (inl err, w1) -> Listed fuel ks w1 vs w' ->
    Listed fuel (k :: ks) w vs w'.

(** The world a computation leaves, and its result. *)
Definition worldAfter {A : Type} (m : M A) (w : World) : World :=
  match m w with
  | Some (_, w') => w'
  | None => w
  end.

Definition resultOf {A : Type} (m : M A) (w : World) : option A :=
  match m w with
  | Some (a, _) => Some a
  | None => None
  end.

(** The calls a computation added to the log. *)
Definition newCalls (before after : World) : list Call :=
  drop (length (calls before)) (calls after).

(** The world after the two lookups [getLevel] starts with on a cache
    miss: the cache lookup and the datastore read. *)
Definition lookedUp (levelId : string) (w : World) : World :=
  logCall (Datastore (DsGet levelId)) (logCall (MemcacheGet ("level:" +:+ levelId)) w).

(** The world after [cache.CacheResource] of a level entry. *)
Definition cacheLevel (v : levelCacheEntry) (w : World) : World :=
  logCall (MemcacheSet ("level:" +:+ Key v))
          (setMemcache (<["level:" +:+ Key v := LevelBlob v]> (memcache w)) w).

(** The world after [cache.CacheResource] of a response entry. *)
Definition cacheResponse (entry : responseCacheEntry) (w : World) : World :=
  logCall (MemcacheSet ("response:" +:+ Path entry))
          (setMemcache (<["response:" +:+ Path entry := ResponseBlob entry]> (memcache w)) w).

(** Between [w] and [w'] a resolution of [id], whose stored struct is [d],
    went on to resolve the parent: after the two lookups for [id] the next
    call is the cache lookup for the parent. *)
Definition resolvesParent (d : DatastoreLevel.t) (id : string) (w w' : World) : Prop :=
  exists rest,
    newCalls w w' =
      MemcacheGet ("level:" +:+ id) :: Datastore (DsGet id)
        :: MemcacheGet ("level:" +:+ Parent d) :: rest.

(** The two cache keys [invalidateLevelCaches] deletes for a level. *)
Definition cacheKeysOf (levelId : string) : list string :=
  ["response:" +:+ buildResourcePath levelId; "level:" +:+ levelId].

(** The memcache after the keys of [ids] are deleted, one id after the
    other. *)
Definition evictAll (ids : list string) (m : gmap string blob) : gmap string blob :=
  fold_left (fun m id => delete ("level:" +:+ id) (delete ("response:" +:+ buildResourcePath id) m))
            ids m.

(** The direct children of [parentId] as the children query finds them. *)
Definition childrenOf (parentId : string) (s : gmap string DatastoreLevel.t) : list string :=
  (filter (fun kv => Parent kv.2 = parentId) (map_to_list s)).*1.

(** The request body [level] with its key field replaced by [bodyKey]. *)
Definition setBodyKey (bodyKey : option string) (level : JsonLevel.t) : JsonLevel.t :=
  JsonLevel.mk bodyKey (JsonLevel.Parent level) (JsonLevel.Name level)
    (JsonLevel.Rows level) (JsonLevel.Columns level) (JsonLevel.Health level)
    (JsonLevel.Duration level) (JsonLevel.ComboTimer level)
    (JsonLevel.UnitDelayMultiplier level) (JsonLevel.MaxActiveUnits level)
    (JsonLevel.SpawnsPerSecond level) (JsonLevel.SpawnFrequency level).

(** The levels of a listing reply, and the level of a single-entity
    reply. *)
Definition listedLevels (reply : option Reply) : list JsonLevel.t :=
  match reply with
  | Some (_, BodyLevels levels) => levels
  | _ => []
  end.

Definition repliedLevel (reply : option Reply) : option JsonLevel.t :=
  match reply with
  | Some (_, BodyLevel level) => Some level
  | _ => None
  end.

(** ** Example worlds *)

(** A root level that sets [rows] and [columns] only. *)
Definition gridLevel (rows columns : int32) : JsonLevel.t :=
  JsonLevel.mk None None None (Some rows) (Some columns) None None None None None None None.

(** A level that sets nothing but its parent reference. *)
Definition childOf (parent : string) : JsonLevel.t :=
  JsonLevel.mk None (Some parent) None None None None None None None None None None.

(** A level with a parent reference and every field set. *)
Definition fullLevel (parent : string) : JsonLevel.t :=
  JsonLevel.mk None (Some parent) (Some "full") (Some 1) (Some 2) (Some 3) (Some 4)
    (Some 5) (Some 6) (Some 7) (Some 8) (Some ({[ "grunt_fire" := 9 ]} : gmap string float32)).

Definition emptyWorld : World := mkWorld ∅ [] ∅ [].

(** Three generations: A sets rows and columns, B is a child of A, C is a
    child of B; then C is read, which fills both cache tiers. *)
Definition threeGenerations : World :=
  worldAfter (handleGet 3 "C")
    (worldAfter (handlePost map_to_list "C" (Some (childOf "B")))
       (worldAfter (handlePost map_to_list "B" (Some (childOf "A")))
          (worldAfter (handlePost map_to_list "A" (Some (gridLevel 1 2))) emptyWorld))).

(** The same world after the root's rows are updated from 1 to 5. *)
Definition afterRootUpdate : World :=
  worldAfter (handlePost map_to_list "A" (Some (gridLevel 5 2))) threeGenerations.

(** The store of [threeGenerations] with nothing cached and an empty log. *)
Definition coldGenerations : World := mkWorld (datastore threeGenerations) [] ∅ [].

(** [threeGenerations] with the children query on A failing. *)
Definition childrenQueryDown : World :=
  mkWorld (datastore threeGenerations) [DsQueryChildren "A"] (memcache threeGenerations) [].

(** [threeGenerations] with the enumeration query failing. *)
Definition enumerationDown : World :=
  mkWorld (datastore threeGenerations) [DsQueryAll 100] (memcache threeGenerations) [].

(** The store of [threeGenerations] with nothing cached and the
    enumeration query failing after it has read two keys. *)
Definition enumerationCut : World :=
  mkWorld (datastore threeGenerations) [DsQueryAll 100; DsQueryAllRead 100 2] ∅ [].

(** The store of [threeGenerations] with nothing cached and the datastore
    read of C failing. *)
Definition leafUnreadable : World :=
  mkWorld (datastore threeGenerations) [DsGet "C"] ∅ [].

(** A level with every field set whose parent is a stored root. *)
Definition fullChildWorld : World :=
  worldAfter (handlePost map_to_list "X" (Some (fullLevel "P")))
    (worldAfter (handlePost map_to_list "P" (Some (gridLevel 1 2))) emptyWorld).

(** A level whose parent reference names an id that was never stored. *)
Definition orphanWorld : World :=
  worldAfter (handlePost map_to_list "X" (Some (childOf "P"))) emptyWorld.

(** A root A next to a level X whose parent was never stored. *)
Definition mixedWorld : World :=
  worldAfter (handlePost map_to_list "X" (Some (childOf "P")))
    (worldAfter (handlePost map_to_list "A" (Some (gridLevel 1 2))) emptyWorld).

(** The stored structs of the example worlds. *)
Definition storedA : DatastoreLevel.t := ToDatastoreLevel map_to_list (withKey "A" (gridLevel 1 2)).
Definition updatedA : DatastoreLevel.t := ToDatastoreLevel map_to_list (withKey "A" (gridLevel 5 2)).
Definition storedB : DatastoreLevel.t := ToDatastoreLevel map_to_list (withKey "B" (childOf "A")).
Definition storedC : DatastoreLevel.t := ToDatastoreLevel map_to_list (withKey "C" (childOf "B")).

Definition storedFull : DatastoreLevel.t :=
  ToDatastoreLevel map_to_list (withKey "X" (fullLevel "P")).
Definition storedOrphan : DatastoreLevel.t :=
  ToDatastoreLevel map_to_list (withKey "X" (childOf "P")).

(** A store of [count] parentless levels under numbered keys. *)
Definition numberedKey (i : nat) : string := "test_key_" +:+ pretty i.

Definition manyLevels (count : nat) : gmap string DatastoreLevel.t :=
  list_to_map
    ((fun i => (numberedKey i,
                ToDatastoreLevel map_to_list (withKey (numberedKey i) (gridLevel 1 2))))
       <$> seq 0 count).

Definition crowdedWorld : World := mkWorld (manyLevels 101) [] ∅ [].

(** ** The rest of the service *)

(** The routes [Init] registers for the levels resource, as requests:
    [GET /levels/:id], [POST /levels/:id], [PUT /levels/:id],
    [DELETE /levels/:id] and [GET /levels]. *)
Inductive Request : Type :=
| GetLevel (id : string)
| PostLevel (id : string) (body : option JsonLevel.t)
| PutLevel (id : string) (body : option JsonLevel.t)
| DeleteLevel (id : string)
| QueryLevels.

(** The handler [Init] binds to each route. *)
Definition serve (fuel : nat) (range : gmap string float32 -> list (string * float32))
    (request : Request) : M Reply :=
  match request with
  | GetLevel id => handleGet fuel id
  | PostLevel id body => handlePost range id body
  | PutLevel id body => handlePut range id body
  | DeleteLevel id => handleDelete id
  | QueryLevels => handleQuery fuel
  end.

(** A sequence of requests served one after the other; the world they
    leave. *)
Fixpoint serveAll (fuel : nat) (range : gmap string float32 -> list (string * float32))
    (requests : list Request) (w : World) : option World :=
  match requests with
  | [] => Some w
  | request :: requests =>
    match serve fuel range request w with
    | Some (_, w') => serveAll fuel range requests w'
    | None => None
    end
  end.

(** A request that only reads. *)
Definition isRead (request : Request) : bool :=
  match request with
  | GetLevel _ | QueryLevels => true
  | _ => false
  end.

(** A level stored as its own parent. *)
Definition loopWorld : World :=
  worldAfter (handlePost map_to_list "L" (Some (childOf "L"))) emptyWorld.

Definition storedLoop : DatastoreLevel.t :=
  ToDatastoreLevel map_to_list (withKey "L" (childOf "L")).

(** [coldGenerations] with the datastore read of A failing. *)
Definition rootUnreadable : World := mkWorld (datastore coldGenerations) [DsGet "A"] ∅ [].

(** A session that stores three generations, reads, updates, deletes and
    lists. *)
Definition sampleSession : list Request :=
  [PostLevel "A" (Some (gridLevel 1 2)); PostLevel "B" (Some (childOf "A"));
   PutLevel "C" (Some (setBodyKey (Some "other") (childOf "B"))); GetLevel "C"; QueryLevels;
   PostLevel "A" (Some (gridLevel 5 2)); DeleteLevel "B"; GetLevel "C"; PostLevel "D" None;
   QueryLevels].


(** A root P with a direct child C, both read and so cached. *)
Definition familyWorld : World :=
  worldAfter (handleGet 2 "C")
    (worldAfter (handlePost map_to_list "C" (Some (childOf "P")))
       (worldAfter (handlePost map_to_list "P" (Some (gridLevel 1 2))) emptyWorld)).

Definition storedChild : DatastoreLevel.t :=
  ToDatastoreLevel map_to_list (withKey "C" (childOf "P")).

(** A datastore level whose spawn slice names one unit type twice. *)
Definition repeatedSpawns : list datastoreSpawnFrequency :=
  [mkSpawn "grunt_fire" 1; mkSpawn "grunt_ice" 2; mkSpawn "grunt_fire" 3].

(** Two structs with the same set fields and different values under
    lowered flags. *)
Definition tidyLevel : DatastoreLevel.t :=
  DatastoreLevel.mk "T" true "" false "tidy" true 0 false 0 false 0 false 0 false
                    0 false 0 false 0 false 0 false [] false.

Definition untidyLevel : DatastoreLevel.t :=
  DatastoreLevel.mk "T" true "" false "tidy" true 7 false 8 false 9 false 0 false
                    0 false 0 false 0 false 0 false [mkSpawn "grunt_fire" 1] false.

(** ** Package [territory] *)

(** A Go slice of strings: the nil slice, or a slice with its elements,
    possibly none.  JSON writes the first as [null] and an empty one as
    [[]]. *)
Inductive slice : Type :=
| nilSlice
| sliceOf (elements : list string).

Module Territory.
Record t : Type := mk {
  Id : option string;
  Sequence : option int32;
  Name : option string;
  Levels : option slice
}.

(** The zero value [&territory.Territory{}]. *)
Definition zero : t := mk None None None None.
End Territory.

Module dsTerritory.
Record t : Type := mk {
  Id : string;
  HasId : bool;
  Sequence : int32;
  HasSequence : bool;
  Name : string;
  HasName : bool;
  Levels : slice;
  HasLevels : bool
}.
End dsTerritory.

(** [Save]: the struct handed to [datastore.SaveStruct]. *)
Definition Save (t : Territory.t) : dsTerritory.t :=
  {| dsTerritory.Id := derefOr "" (Territory.Id t);
     dsTerritory.HasId := isSet (Territory.Id t);
     dsTerritory.Sequence := derefOr 0 (Territory.Sequence t);
     dsTerritory.HasSequence := isSet (Territory.Sequence t);
     dsTerritory.Name := derefOr "" (Territory.Name t);
     dsTerritory.HasName := isSet (Territory.Name t);
     dsTerritory.Levels := derefOr nilSlice (Territory.Levels t);
     dsTerritory.HasLevels := isSet (Territory.Levels t) |}.

(** [Load] into the receiver [t], from the struct [datastore.LoadStruct]
    filled: a field whose flag is lowered keeps what the receiver had. *)
Definition Load (dst : dsTerritory.t) (t : Territory.t) : Territory.t :=
  {| Territory.Id :=
       if dsTerritory.HasId dst then Some (dsTerritory.Id dst) else Territory.Id t;
     Territory.Sequence :=
       if dsTerritory.HasSequence dst then Some (dsTerritory.Sequence dst)
       else Territory.Sequence t;
     Territory.Name :=
       if dsTerritory.HasName dst then Some (dsTerritory.Name dst) else Territory.Name t;
     Territory.Levels :=
       if dsTerritory.HasLevels dst then Some (dsTerritory.Levels dst)
       else Territory.Levels t |}.

(** What [datastore.LoadStruct] fills from the properties that
    [datastore.SaveStruct] wrote for [src]: a slice without elements has no
    property, so it comes back nil; every other field comes back as it was
    saved. *)
Definition stored (src : dsTerritory.t) : dsTerritory.t :=
  {| dsTerritory.Id := dsTerritory.Id src;
     dsTerritory.HasId := dsTerritory.HasId src;
     dsTerritory.Sequence := dsTerritory.Sequence src;
     dsTerritory.HasSequence := dsTerritory.HasSequence src;
     dsTerritory.Name := dsTerritory.Name src;
     dsTerritory.HasName := dsTerritory.HasName src;
     dsTerritory.Levels :=
       match dsTerritory.Levels src with
       | sliceOf [] => nilSlice
       | levels => levels
       end;
     dsTerritory.HasLevels := dsTerritory.HasLevels src |}.

(** ** Package [territories]

    The territories resource has its own kind and ancestor in the
    datastore, and its own response entries in memcache.  The datastore
    holds, per key name, the struct [datastore.LoadStruct] fills from what
    was saved; [datastore.Get] and [GetAll] run [Load] on a fresh
    [Territory].  No handler recurses, so the computations are total. *)

Module territories.

Inductive ResponseBody : Type :=
| BodyNil
| BodyText (text : string)
| BodyError (text : string) (err : error)
| BodyTerritory (territory : Territory.t)
| BodyTerritories (found : list Territory.t).

Record responseCacheEntry : Type := mkResponse {
  Path : string;
  Code : Z;
  Response : ResponseBody
}.

Record World : Type := mkWorld {
  datastore : gmap string dsTerritory.t;
  failing : list DsOp;
  memcache : gmap string responseCacheEntry;
  calls : list Call
}.

Definition logCall (c : Call) (w : World) : World :=
  mkWorld (datastore w) (failing w) (memcache w) (calls w ++ [c]).

Definition setMemcache (m : gmap string responseCacheEntry) (w : World) : World :=
  mkWorld (datastore w) (failing w) m (calls w).

Definition setDatastore (s : gmap string dsTerritory.t) (w : World) : World :=
  mkWorld s (failing w) (memcache w) (calls w).

Definition fails (op : DsOp) (w : World) : bool := bool_decide (op ∈ failing w).

Definition M (A : Type) : Type := World -> A * World.

Definition ret {A : Type} (a : A) : M A := fun w => (a, w).

Definition bind {A B : Type} (m : M A) (k : A -> M B) : M B :=
  fun w => let (a, w') := m w in k a w'.

#[local] Notation "'step' x <~ m ; k" := (bind m (fun x => k))
  (at level 10, x name, m at level 100, k at level 200, only parsing).

Definition kind : string := "Territory".
Definition queryAllKey : string := "query:all@territories".

Definition GetCacheKey (entry : responseCacheEntry) : string := "response:" +:+ Path entry.

(** [cache.GetCachedResource] on a response entry of this package. *)
Definition GetCachedResource (cacheItem : responseCacheEntry) : M (error + responseCacheEntry) :=
  fun w =>
    (match memcache w !! GetCacheKey cacheItem with
     | Some cached => inr cached
     | None => inl ErrCacheMiss
     end, logCall (MemcacheGet (GetCacheKey cacheItem)) w).

(** [cache.CacheResource]. *)
Definition CacheResource (cacheItem : responseCacheEntry) : M (option error) :=
  fun w =>
    (None, logCall (MemcacheSet (GetCacheKey cacheItem))
                   (setMemcache (<[GetCacheKey cacheItem := cacheItem]> (memcache w)) w)).

(** [cache.InvalidateCacheEntry]. *)
Definition InvalidateCacheEntry (cacheItem : responseCacheEntry) : M (option error) :=
  fun w =>
    (match memcache w !! GetCacheKey cacheItem with
     | Some _ => None
     | None => Some ErrCacheMiss
     end, logCall (MemcacheDelete (GetCacheKey cacheItem))
                  (setMemcache (delete (GetCacheKey cacheItem) (memcache w)) w)).

(** [datastore.Get] into [dst]. *)
Definition datastoreGet (key : string) (dst : Territory.t) : M (error + Territory.t) :=
  fun w =>
    (if fails (DsGet key) w then inl ErrDatastore
     else match datastore w !! key with
          | Some saved => inr (Load saved dst)
          | None => inl ErrNoSuchEntity
          end, logCall (Datastore (DsGet key)) w).

(** [datastore.Put] of [src]. *)
Definition datastorePut (key : string) (src : Territory.t) : M (option error) :=
  fun w =>
    if fails (DsPut key) w then (Some ErrDatastore, logCall (Datastore (DsPut key)) w)
    else (None, logCall (Datastore (DsPut key))
                        (setDatastore (<[key := stored (Save src)]> (datastore w)) w)).

(** [datastore.Delete]. *)
Definition datastoreDelete (key : string) : M (option error) :=
  fun w =>
    if fails (DsDelete key) w then (Some ErrDatastore, logCall (Datastore (DsDelete key)) w)
    else (None, logCall (Datastore (DsDelete key))
                        (setDatastore (delete key (datastore w)) w)).

(** The stored territories in the order the datastore returns them, each
    loaded into a fresh [Territory]. *)
Definition storedTerritories (s : gmap string dsTerritory.t) : list Territory.t :=
  (fun kv => Load kv.2 Territory.zero) <$> map_to_list s.

(** [NewQuery(kind).Ancestor(root).Limit(limit)] followed by [GetAll] into
    a slice of territories.  [GetAll] appends to the slice as it reads, so
    a failing query leaves in it the territories read so far. *)
Definition queryAll (limit : nat) : M (list Territory.t * option error) :=
  fun w =>
    let found := take limit (storedTerritories (datastore w)) in
    (if fails (DsQueryAll limit) w
     then (take (readBeforeFailure limit (failing w)) found, Some ErrDatastore)
     else (found, None),
     logCall (Datastore (DsQueryAll limit)) w).

Definition responseEntryFor (path : string) : responseCacheEntry := mkResponse path 0 BodyNil.

Definition buildResourcePath (territoryId : string) : string := "/territories/" +:+ territoryId.

Definition invalidateResponseCache (territoryId : string) : M unit :=
  step _ <~ InvalidateCacheEntry (responseEntryFor (buildResourcePath territoryId)) ;
  ret tt.

Definition invalidateQueryCaches : M unit :=
  step _ <~ InvalidateCacheEntry (responseEntryFor queryAllKey) ;
  ret tt.

Definition Reply : Type := Z * ResponseBody.

(** [handleGet] for the route [/territories/:id]. *)
Definition handleGet (territoryId : string) : M Reply :=
  let path := "/territories/" +:+ territoryId in
  step cachedResponse <~ GetCachedResource (responseEntryFor path) ;
  match cachedResponse with
  | inr entry => ret (Code entry, Response entry)
  | inl _ =>
    step loaded <~ datastoreGet territoryId Territory.zero ;
    match loaded with
    | inl ErrNoSuchEntity =>
      let cacheEntry := mkResponse path StatusNotFound (BodyText "Territory does not exist") in
      step _ <~ CacheResource cacheEntry ;
      ret (Code cacheEntry, Response cacheEntry)
    | inl err =>
      ret (StatusInternalServerError, BodyError "Could not retrieve the territory: " err)
    | inr result =>
      let cacheEntry := mkResponse path StatusOK (BodyTerritory result) in
      step _ <~ CacheResource cacheEntry ;
      ret (Code cacheEntry, Response cacheEntry)
    end
  end.

(** [territory.Id = new(string); *territory.Id = context.Param("id")]. *)
Definition withId (id : string) (territory : Territory.t) : Territory.t :=
  Territory.mk (Some id) (Territory.Sequence territory) (Territory.Name territory)
               (Territory.Levels territory).

Definition handlePost (id : string) (body : option Territory.t) : M Reply :=
  match body with
  | None => ret (StatusBadRequest, BodyError "Failed to unmarshal the JSON: " ErrUnmarshal)
  | Some territory =>
    let territory := withId id territory in
    step err <~ datastorePut id territory ;
    match err with
    | Some err => ret (StatusInternalServerError, BodyError "Failed to store the territory: " err)
    | None =>
      step _ <~ invalidateResponseCache id ;
      step _ <~ invalidateQueryCaches ;
      ret (StatusOK, BodyNil)
    end
  end.

Definition handlePut (id : string) (body : option Territory.t) : M Reply :=
  handlePost id body.

Definition handleDelete (territoryId : string) : M Reply :=
  step err <~ datastoreDelete territoryId ;
  match err with
  | Some err => ret (StatusInternalServerError, BodyError "Failed to delete the territory: " err)
  | None =>
    step _ <~ invalidateResponseCache territoryId ;
    step _ <~ invalidateQueryCaches ;
    ret (StatusOK, BodyNil)
  end.

Definition handleQuery : M Reply :=
  step responseEntry <~ GetCachedResource (responseEntryFor queryAllKey) ;
  match responseEntry with
  | inr entry => ret (Code entry, Response entry)
  | inl _ =>
    step found <~ queryAll 100 ;
    let cacheEntry := mkResponse queryAllKey StatusOK (BodyTerritories found.1) in
    step _ <~ CacheResource cacheEntry ;
    ret (Code cacheEntry, Response cacheEntry)
  end.

(** The routes [Init] registers for the territories resource. *)
Inductive Request : Type :=
| GetTerritory (id : string)
| PostTerritory (id : string) (body : option Territory.t)
| PutTerritory (id : string) (body : option Territory.t)
| DeleteTerritory (id : string)
| QueryTerritories.

Definition serve (request : Request) : M Reply :=
  match request with
  | GetTerritory id => handleGet id
  | PostTerritory id body => handlePost id body
  | PutTerritory id body => handlePut id body
  | DeleteTerritory id => handleDelete id
  | QueryTerritories => handleQuery
  end.

Fixpoint serveAll (requests : list Request) (w : World) : World :=
  match requests with
  | [] => w
  | request :: requests => serveAll requests (serve request w).2
  end.

(** What a read of [id] computes from the store [s] when nothing is
    cached and the datastore read does not fail. *)
Definition freshEntry (s : gmap string dsTerritory.t) (id : string) : responseCacheEntry :=
  match s !! id with
  | Some saved =>
    mkResponse (buildResourcePath id) StatusOK (BodyTerritory (Load saved Territory.zero))
  | None =>
    mkResponse (buildResourcePath id) StatusNotFound (BodyText "Territory does not exist")
  end.

(** What a listing computes from the store [s] when nothing is cached and
    the query does not fail. *)
Definition freshListing (s : gmap string dsTerritory.t) : responseCacheEntry :=
  mkResponse queryAllKey StatusOK (BodyTerritories (take 100 (storedTerritories s))).

(** Every cached reply is the one the store gives now. *)
Definition Fresh (w : World) : Prop :=
  (forall id e,
     memcache w !! ("response:" +:+ buildResourcePath id) = Some e ->
     e = freshEntry (datastore w) id) /\
  (forall e,
     memcache w !! ("response:" +:+ queryAllKey) = Some e -> e = freshListing (datastore w)).

Definition emptyWorld : World := mkWorld ∅ [] ∅ [].

Definition sampleTerritory : Territory.t :=
  Territory.mk (Some "from-body") (Some 1) (Some "north") (Some (sliceOf ["test"; "default"])).


Definition sampleSession : list Request :=
  [GetTerritory "t1"; PostTerritory "t1" (Some sampleTerritory); GetTerritory "t1";
   QueryTerritories; PutTerritory "t2" (Some Territory.zero); QueryTerritories;
   DeleteTerritory "t1"; GetTerritory "t1"; PostTerritory "t3" None; QueryTerritories].

(** A store of [count] territories under numbered keys. *)
Definition manyTerritories (count : nat) : gmap string dsTerritory.t :=
  list_to_map
    ((fun i => (numberedKey i, stored (Save (withId (numberedKey i) sampleTerritory))))
       <$> seq 0 count).

Definition crowdedWorld : World := mkWorld (manyTerritories 101) [] ∅ [].

End territories.

(** * Properties *)

(** ** Conversions between the JSON and the datastore form *)

Lemma spawnElements_fmap (entries : list (string * float32)) :
  spawnElements entries = (fun kv => mkSpawn kv.1 kv.2) <$> entries.
Proof.
  unfold spawnElements.
  assert (G : forall acc, fold_left (fun acc kv => acc ++ [mkSpawn kv.1 kv.2]) entries acc
                          = acc ++ ((fun kv => mkSpawn kv.1 kv.2) <$> entries)).
  { induction entries as [|kv entries IH]; intros acc; simpl.
    - by rewrite app_nil_r.
    - rewrite IH, <- app_assoc. reflexivity. }
  apply (G []).
Qed.

Lemma spawnMap_fmap (entries : list (string * float32)) :
  spawnMap ((fun kv => mkSpawn kv.1 kv.2) <$> entries)
  = (list_to_map (reverse entries) : gmap string float32).
Proof.
  unfold spawnMap.
  rewrite <- (reverse_involutive entries) at 1.
  generalize (reverse entries) as l. intros l.
  induction l as [|kv l IH]; [reflexivity|].
  rewrite reverse_cons, fmap_app, fold_left_app, IH. reflexivity.
Qed.

(** Rebuilding the map from the slice gives back the map the slice was
    built from, in whatever order the map was ranged over. *)
Lemma spawnMap_spawnElements (m : gmap string float32) (entries : list (string * float32)) :
  entries ≡ₚ map_to_list m -> spawnMap (spawnElements entries) = m.
Proof.
  intros Hperm.
  rewrite spawnElements_fmap, spawnMap_fmap.
  transitivity (list_to_map (map_to_list m) : gmap string float32);
    [|apply list_to_map_to_list].
  apply list_to_map_proper.
  - rewrite reverse_Permutation, Hperm. apply NoDup_fst_map_to_list.
  - by rewrite reverse_Permutation.
Qed.

(** C8. Converting a [JsonLevel] to the datastore form and back gives the
    same [JsonLevel], field by field: a nil field stays nil, a set field
    keeps its value, and the spawn-frequency map comes back with the same
    key/value pairs, whatever order the map is ranged over. *)
Theorem ToJsonLevel_ToDatastoreLevel
    (range : gmap string float32 -> list (string * float32)) (j : JsonLevel.t) :
  (forall m, range m ≡ₚ map_to_list m) ->
  ToJsonLevel (ToDatastoreLevel range j) = j.
Proof.
  intros Hrange.
  destruct j as [k p n r c h d ct u mx sp sf].
  unfold ToJsonLevel, ToDatastoreLevel; simpl.
  destruct k, p, n, r, c, h, d, ct, u, mx, sp; simpl;
    (destruct sf as [m|]; simpl; [rewrite (spawnMap_spawnElements m (range m) (Hrange m))|];
     reflexivity).
Qed.

Lemma ToJsonLevel_ToDatastoreLevel_witness :
  (forall m : gmap string float32, map_to_list m ≡ₚ map_to_list m) /\
  ToJsonLevel (ToDatastoreLevel map_to_list (fullLevel "P")) = fullLevel "P".
Proof.
  split.
  - intros m. reflexivity.
  - apply (ToJsonLevel_ToDatastoreLevel map_to_list (fullLevel "P")). intros m. reflexivity.
Defined.

(** ** The invalidation steps *)

Lemma invalidateLevelCaches_spec (levelId : string) (w : World) :
  exists w',
    invalidateLevelCaches levelId w = Some (tt, w') /\
    datastore w' = datastore w /\ failing w' = failing w /\
    memcache w' = evictAll [levelId] (memcache w) /\
    calls w' = calls w ++ (MemcacheDelete <$> cacheKeysOf levelId).
Proof.
  eexists. split; [reflexivity|]. simpl.
  repeat split. by rewrite <- app_assoc.
Qed.

Lemma invalidateEach_spec (keys : list string) (w : World) :
  exists w',
    invalidateEach keys w = Some (tt, w') /\
    datastore w' = datastore w /\ failing w' = failing w /\
    memcache w' = evictAll keys (memcache w) /\
    calls w' = calls w ++ (MemcacheDelete <$> (keys ≫= cacheKeysOf)).
Proof.
  revert w. induction keys as [|k keys IH]; intros w.
  - exists w. repeat split. simpl. by rewrite app_nil_r.
  - destruct (invalidateLevelCaches_spec k w) as (w1 & E1 & S1 & F1 & M1 & C1).
    destruct (IH w1) as (w2 & E2 & S2 & F2 & M2 & C2).
    exists w2. split.
    + simpl. unfold bind at 1. rewrite E1. exact E2.
    + rewrite S2, F2, M2, C2, S1, F1, M1, C1. repeat split.
      rewrite <- app_assoc. reflexivity.
Qed.

Lemma invalidateChildLevelCaches_spec (parentId : string) (w : World) :
  exists w',
    invalidateChildLevelCaches parentId w = Some (tt, w') /\
    datastore w' = datastore w /\ failing w' = failing w /\
    memcache w' = (if fails (DsQueryChildren parentId) w then memcache w
                   else evictAll (childrenOf parentId (datastore w)) (memcache w)).
Proof.
  unfold invalidateChildLevelCaches, bind, queryChildren.
  destruct (fails (DsQueryChildren parentId) w) eqn:Hf; simpl.
  - eexists. split; [reflexivity|]. repeat split.
  - destruct (invalidateEach_spec (childrenOf parentId (datastore w))
                (logCall (Datastore (DsQueryChildren parentId)) w))
      as (w' & E & S & F & Mc & _).
    exists w'. split; [exact E|]. repeat split; assumption.
Qed.

Lemma invalidateQueryCaches_spec (w : World) :
  exists w',
    invalidateQueryCaches w = Some (tt, w') /\
    datastore w' = datastore w /\ failing w' = failing w /\
    memcache w' = delete ("response:" +:+ queryAllKey) (memcache w).
Proof. eexists. split; [reflexivity|]. repeat split. Qed.

(** The three invalidation steps, run after a write or delete of [id]. *)
Lemma invalidation_spec (id : string) (w : World) :
  exists w',
    (do _ <~ invalidateLevelCaches id;
     do _ <~ invalidateChildLevelCaches id;
     do _ <~ invalidateQueryCaches;
     ret (StatusOK, BodyNil)) w = Some ((StatusOK, BodyNil), w') /\
    datastore w' = datastore w /\ failing w' = failing w /\
    memcache w' =
      delete ("response:" +:+ queryAllKey)
        (if fails (DsQueryChildren id) w then evictAll [id] (memcache w)
         else evictAll (childrenOf id (datastore w)) (evictAll [id] (memcache w))).
Proof.
  destruct (invalidateLevelCaches_spec id w) as (w1 & E1 & S1 & F1 & M1 & _).
  destruct (invalidateChildLevelCaches_spec id w1) as (w2 & E2 & S2 & F2 & M2).
  destruct (invalidateQueryCaches_spec w2) as (w3 & E3 & S3 & F3 & M3).
  exists w3. split.
  - unfold bind at 1. rewrite E1. unfold bind at 1. rewrite E2.
    unfold bind at 1. rewrite E3. reflexivity.
  - rewrite S3, F3, M3, S2, F2, M2, S1, F1, M1.
    unfold fails in *. rewrite F1. repeat split.
Qed.

Lemma handlePost_spec (range : gmap string float32 -> list (string * float32))
    (id : string) (level : JsonLevel.t) (w : World) :
  fails (DsPut id) w = false ->
  exists w',
    handlePost range id (Some level) w = Some ((StatusOK, BodyNil), w') /\
    datastore w' = <[id := ToDatastoreLevel range (withKey id level)]> (datastore w) /\
    failing w' = failing w /\
    memcache w' =
      delete ("response:" +:+ queryAllKey)
        (if fails (DsQueryChildren id) w then evictAll [id] (memcache w)
         else evictAll
                (childrenOf id (<[id := ToDatastoreLevel range (withKey id level)]> (datastore w)))
                (evictAll [id] (memcache w))).
Proof.
  intros Hput.
  unfold handlePost. cbn [ToDatastoreLevel withKey Key JsonLevel.Key derefOr].
  unfold bind at 1. unfold datastorePut. rewrite Hput.
  destruct (invalidation_spec id
              (logCall (Datastore (DsPut id))
                 (setDatastore (<[id := ToDatastoreLevel range (withKey id level)]> (datastore w)) w)))
    as (w' & E & S & F & Mc).
  exists w'. split; [exact E|]. rewrite S, F, Mc. repeat split.
Qed.

Lemma handleDelete_spec (id : string) (w : World) :
  fails (DsDelete id) w = false ->
  exists w',
    handleDelete id w = Some ((StatusOK, BodyNil), w') /\
    datastore w' = delete id (datastore w) /\
    failing w' = failing w /\
    memcache w' =
      delete ("response:" +:+ queryAllKey)
        (if fails (DsQueryChildren id) w then evictAll [id] (memcache w)
         else evictAll (childrenOf id (delete id (datastore w))) (evictAll [id] (memcache w))).
Proof.
  intros Hdel.
  unfold handleDelete.
  unfold bind at 1. unfold datastoreDelete. rewrite Hdel.
  destruct (invalidation_spec id
              (logCall (Datastore (DsDelete id)) (setDatastore (delete id (datastore w)) w)))
    as (w' & E & S & F & Mc).
  exists w'. split; [exact E|]. rewrite S, F, Mc. repeat split.
Qed.

(** ** Mutations *)

(** C5. When the datastore write of an upsert or of a delete succeeds, the
    handler answers 200 even though the children query run during
    invalidation fails; the failure is swallowed: the write stands, the
    entries of the id itself and the listing entry are evicted, and the
    rest of the cache is left as it was. *)
Theorem mutation_ok_when_children_query_fails
    (range : gmap string float32 -> list (string * float32))
    (id : string) (level : JsonLevel.t) (w : World) :
  fails (DsQueryChildren id) w = true ->
  (fails (DsPut id) w = false ->
   resultOf (handlePost range id (Some level)) w = Some (StatusOK, BodyNil) /\
   resultOf (handlePut range id (Some level)) w = Some (StatusOK, BodyNil) /\
   datastore (worldAfter (handlePost range id (Some level)) w) !! id
     = Some (ToDatastoreLevel range (withKey id level)) /\
   memcache (worldAfter (handlePost range id (Some level)) w)
     = delete ("response:" +:+ queryAllKey) (evictAll [id] (memcache w))) /\
  (fails (DsDelete id) w = false ->
   resultOf (handleDelete id) w = Some (StatusOK, BodyNil) /\
   datastore (worldAfter (handleDelete id) w) !! id = None /\
   memcache (worldAfter (handleDelete id) w)
     = delete ("response:" +:+ queryAllKey) (evictAll [id] (memcache w))).
Proof.
  intros Hq. split.
  - intros Hput.
    destruct (handlePost_spec range id level w Hput) as (w' & E & S & _ & Mc).
    unfold handlePut, resultOf, worldAfter. rewrite E.
    split; [reflexivity|]. split; [reflexivity|]. split.
    + rewrite S. apply lookup_insert_eq.
    + rewrite Mc, Hq. reflexivity.
  - intros Hdel.
    destruct (handleDelete_spec id w Hdel) as (w' & E & S & _ & Mc).
    unfold resultOf, worldAfter. rewrite E. split; [reflexivity|]. split.
    + rewrite S. apply lookup_delete_eq.
    + rewrite Mc, Hq. reflexivity.
Qed.

Lemma mutation_ok_when_children_query_fails_witness :
  fails (DsQueryChildren "A") childrenQueryDown = true /\
  resultOf (handlePost map_to_list "A" (Some (gridLevel 5 2))) childrenQueryDown
  = Some (StatusOK, BodyNil) /\
  resultOf (handleDelete "A") childrenQueryDown = Some (StatusOK, BodyNil).
Proof.
  split; [reflexivity|].
  destruct (mutation_ok_when_children_query_fails map_to_list "A" (gridLevel 5 2)
              childrenQueryDown) as [Hpost Hdel]; [reflexivity|].
  split.
  - apply Hpost. reflexivity.
  - apply Hdel. reflexivity.
Defined.

(** C9. An upsert stores the record under the id of the URL path, with
    [Key] equal to that id and [HasKey] raised; a key supplied in the
    request body is overwritten and changes nothing. *)
Theorem upsert_key_from_path
    (range : gmap string float32 -> list (string * float32))
    (id : string) (level : JsonLevel.t) (bodyKey : option string) (w : World) :
  fails (DsPut id) w = false ->
  exists stored,
    datastore (worldAfter (handlePost range id (Some (setBodyKey bodyKey level))) w) !! id
    = Some stored /\
    Key stored = id /\ HasKey stored = true /\
    stored = ToDatastoreLevel range (withKey id level) /\
    handlePost range id (Some (setBodyKey bodyKey level)) w
    = handlePost range id (Some level) w /\
    handlePut range id (Some (setBodyKey bodyKey level)) w
    = handlePost range id (Some level) w.
Proof.
  intros Hput.
  assert (Hbody : withKey id (setBodyKey bodyKey level) = withKey id level) by reflexivity.
  assert (Hsame : handlePost range id (Some (setBodyKey bodyKey level)) w
                  = handlePost range id (Some level) w).
  { unfold handlePost. rewrite Hbody. reflexivity. }
  destruct (handlePost_spec range id level w Hput) as (w' & E & S & _).
  exists (ToDatastoreLevel range (withKey id level)).
  unfold handlePut, worldAfter. rewrite Hsame, E, S.
  split; [apply lookup_insert_eq|].
  repeat split.
Qed.

Lemma upsert_key_from_path_witness :
  exists stored,
    datastore (worldAfter (handlePost map_to_list "A"
                 (Some (setBodyKey (Some "other") (gridLevel 1 2)))) emptyWorld) !! "A"
      = Some stored /\
    Key stored = "A" /\ HasKey stored = true.
Proof.
  destruct (upsert_key_from_path map_to_list "A" (gridLevel 1 2) (Some "other") emptyWorld)
    as (stored & Hs & Hk & Hh & _); [reflexivity|].
  exists stored. repeat split; assumption.
Defined.

(** ** The entity resolver *)

Lemma level_key_inj (a b : string) : "level:" +:+ a = "level:" +:+ b -> a = b.
Proof. intros H. simpl in H. by simplify_eq. Qed.

Lemma getLevel_hit (n : nat) (id : string) (v : levelCacheEntry) (w : World) :
  memcache w !! ("level:" +:+ id) = Some (LevelBlob v) ->
  getLevel (S n) id w = Some (inr v, logCall (MemcacheGet ("level:" +:+ id)) w).
Proof.
  intros H. simpl. unfold bind, GetCachedResource, bind, memcacheGet. simpl.
  rewrite H. reflexivity.
Qed.

Lemma getLevel_miss (n : nat) (id : string) (w : World) :
  levelMiss id w ->
  getLevel (S n) id w =
    if fails (DsGet id) w then Some (inl ErrDatastore, lookedUp id w)
    else match datastore w !! id with
         | None => Some (inl ErrNoSuchEntity, lookedUp id w)
         | Some d =>
           if hasParentRef d then
             match getLevel n (Parent d) (lookedUp id w) with
             | None => None
             | Some (inl err, w2) => Some (inl err, w2)
             | Some (inr p, w2) =>
               Some (inr (MergeParentProperties d p), cacheLevel (MergeParentProperties d p) w2)
             end
           else Some (inr d, cacheLevel d (lookedUp id w))
         end.
Proof.
  intros Hmiss.
  assert (Hcached : exists err,
             GetCachedResource (levelEntryFor id) w
             = Some (inl err, logCall (MemcacheGet ("level:" +:+ id)) w)).
  { unfold GetCachedResource, bind, memcacheGet.
    change (GetCacheKey (levelEntryFor id)) with ("level:" +:+ id).
    destruct (memcache w !! ("level:" +:+ id)) as [[v|e]|] eqn:E.
    - exfalso. exact (Hmiss v E).
    - eexists. reflexivity.
    - eexists. reflexivity. }
  destruct Hcached as (err & Hc).
  cbn [getLevel]. unfold bind at 1. rewrite Hc.
  unfold bind at 1. unfold datastoreGet.
  change (fails (DsGet id) (logCall (MemcacheGet ("level:" +:+ id)) w)) with (fails (DsGet id) w).
  destruct (fails (DsGet id) w); [reflexivity|].
  change (datastore (logCall (MemcacheGet ("level:" +:+ id)) w)) with (datastore w).
  destruct (datastore w !! id) as [d|]; [|reflexivity].
  destruct (hasParentRef d); [|reflexivity].
  unfold bind at 1. fold (lookedUp id w).
  destruct (getLevel n (Parent d) (lookedUp id w)) as [[[err'|p] w2]|]; reflexivity.
Qed.

Lemma levelMiss_dec (id : string) (w : World) :
  (exists v, memcache w !! ("level:" +:+ id) = Some (LevelBlob v)) \/ levelMiss id w.
Proof.
  destruct (memcache w !! ("level:" +:+ id)) as [[v|e]|] eqn:E.
  - left. eauto.
  - right. intros v. rewrite E. discriminate.
  - right. intros v. rewrite E. discriminate.
Qed.

(** More fuel does not change the outcome of a resolution that returns. *)
Lemma getLevel_fuel_S (n : nat) :
  forall id w x, getLevel n id w = Some x -> getLevel (S n) id w = Some x.
Proof.
  induction n as [|n IH]; intros id w x H; [discriminate|].
  destruct (levelMiss_dec id w) as [[v Hv]|Hmiss].
  - rewrite (getLevel_hit n id v w Hv) in H. rewrite (getLevel_hit (S n) id v w Hv). exact H.
  - rewrite getLevel_miss in H by assumption. rewrite getLevel_miss by assumption.
    destruct (fails (DsGet id) w); [exact H|].
    destruct (datastore w !! id) as [d|]; [|exact H].
    destruct (hasParentRef d); [|exact H].
    destruct (getLevel n (Parent d) (lookedUp id w)) as [y|] eqn:E; [|discriminate].
    rewrite (IH _ _ _ E). exact H.
Qed.

Lemma getLevel_fuel_le (n m : nat) (id : string) (w : World) x :
  (n <= m)%nat -> getLevel n id w = Some x -> getLevel m id w = Some x.
Proof.
  intros Hle H. induction Hle; [exact H|]. by apply getLevel_fuel_S.
Qed.

(** A resolution returns when the walk along the parent references ends
    within the fuel. *)
Lemma getLevel_returns (s : gmap string DatastoreLevel.t) (id : string) (n : nat) :
  Ends s id n ->
  forall w, datastore w = s -> exists r w', getLevel (S n) id w = Some (r, w').
Proof.
  induction 1 as [id n Habs|id d n Hd Hroot|id d n Hd Hpar _ IH]; intros w Hs; subst s.
  - destruct (levelMiss_dec id w) as [[v Hv]|Hmiss].
    + rewrite (getLevel_hit _ id v w Hv). eauto.
    + rewrite getLevel_miss by assumption. rewrite Habs.
      destruct (fails (DsGet id) w); eauto.
  - destruct (levelMiss_dec id w) as [[v Hv]|Hmiss].
    + rewrite (getLevel_hit _ id v w Hv). eauto.
    + rewrite getLevel_miss by assumption. rewrite Hd, Hroot.
      destruct (fails (DsGet id) w); eauto.
  - destruct (levelMiss_dec id w) as [[v Hv]|Hmiss].
    + rewrite (getLevel_hit _ id v w Hv). eauto.
    + rewrite getLevel_miss by assumption. rewrite Hd, Hpar.
      destruct (fails (DsGet id) w); eauto.
      destruct (IH (lookedUp id w) eq_refl) as (r & w2 & E). rewrite E.
      destruct r; eauto.
Qed.

(** *** Chains and merged views *)

Lemma fieldOf_merge (f : Field) (d p : DatastoreLevel.t) :
  fieldOf f (MergeParentProperties d p)
  = match fieldOf f d with
    | Some v => Some v
    | None => fieldOf f p
    end.
Proof.
  destruct f; unfold fieldOf, MergeParentProperties, mergedFlag, mergedValue, ptrIf;
    cbn [Name HasName Rows HasRows Columns HasColumns Health HasHealth Duration HasDuration
         ComboTimer HasComboTimer UnitDelayMultiplier HasUnitDelayMultiplier
         MaxActiveUnits HasMaxActiveUnits SpawnsPerSecond HasSpawnsPerSecond
         SpawnFrequency HasSpawnFrequency];
    match goal with
    | |- context [negb ?a && ?b] => destruct a, b; reflexivity
    end.
Qed.

Lemma IsMerge_root (d : DatastoreLevel.t) : IsMerge [d] d.
Proof.
  split; [|by repeat split].
  intros f. simpl. by destruct (fieldOf f d).
Qed.

Lemma IsMerge_step (d p : DatastoreLevel.t) (ds : list DatastoreLevel.t) :
  IsMerge ds p -> IsMerge (d :: ds) (MergeParentProperties d p).
Proof.
  intros [Hf _]. split; [|by repeat split].
  intros f. rewrite fieldOf_merge. simpl. by rewrite Hf.
Qed.


Lemma Chain_deterministic s id ds ds' : Chain s id ds -> Chain s id ds' -> ds = ds'.
Proof.
  intros H. revert ds'.
  induction H as [id d Hd Hr|id d ds Hd Hp _ IH]; intros ds' H'.
  - inversion H'; subst; simplify_eq; [reflexivity|congruence].
  - inversion H'; subst; simplify_eq; [congruence|].
    f_equal. by apply IH.
Qed.


Lemma Chain_not_Dangling s id ds : Chain s id ds -> Dangling s id -> False.
Proof.
  induction 1 as [id d Hd Hr|id d ds Hd Hp _ IH]; intros Hdang.
  - inversion Hdang; subst; simplify_eq. congruence.
  - inversion Hdang; subst; simplify_eq. by apply IH.
Qed.

Lemma lookup_cacheLevel (v v' : levelCacheEntry) (w : World) (k : string) :
  memcache (cacheLevel v w) !! ("level:" +:+ k) = Some (LevelBlob v') ->
  (k = Key v /\ v' = v) \/ memcache w !! ("level:" +:+ k) = Some (LevelBlob v').
Proof.
  unfold cacheLevel. cbn [memcache logCall setMemcache]. intros H.
  destruct (decide (k = Key v)) as [->|Hne].
  - rewrite lookup_insert_eq in H. left. by simplify_eq.
  - rewrite lookup_insert_ne in H; [by right|].
    intros Heq. apply level_key_inj in Heq. congruence.
Qed.

Lemma CacheCoherent_chain (w : World) (id : string) : CacheCoherent w -> ChainCoherent w id.
Proof. intros Hco k v _ Hl. by apply Hco. Qed.

Lemma NoGetFaults_chain (w : World) (id : string) : NoGetFaults w -> ChainReadable w id.
Proof. intros Hnf k _. apply Hnf. Qed.

(** What a resolution that returns has done: the store and the fault list
    are untouched; a level it returns is the merged view of the id; the
    only error it returns is [ErrNoSuchEntity], for an id whose chain
    dangles; and, the store being keyed, every level entry of the cache is
    one that was there before or the merged view of its id. *)
Lemma getLevel_sound (n : nat) :
  forall id w r w',
    ChainCoherent w id -> ChainReadable w id ->
    getLevel n id w = Some (r, w') ->
    datastore w' = datastore w /\ failing w' = failing w /\
    match r with
    | inr v => MergedView (datastore w) id v
    | inl err => err = ErrNoSuchEntity /\ Dangling (datastore w) id
    end /\
    (StoreKeyed (datastore w) ->
     forall k v, memcache w' !! ("level:" +:+ k) = Some (LevelBlob v) ->
                 memcache w !! ("level:" +:+ k) = Some (LevelBlob v) \/
                 MergedView (datastore w) k v).
Proof.
  induction n as [|n IH]; intros id w r w' Hco Hnf H; [discriminate|].
  destruct (levelMiss_dec id w) as [[v Hv]|Hmiss].
  - rewrite (getLevel_hit n id v w Hv) in H. simplify_eq.
    split; [reflexivity|]. split; [reflexivity|]. split.
    + exact (Hco id v (OnChain_here _ _) Hv).
    + intros _ k v' Hk. left. exact Hk.
  - rewrite getLevel_miss in H by assumption.
    rewrite (Hnf id (OnChain_here _ _)) in H.
    destruct (datastore w !! id) as [d|] eqn:Hd.
    2:{ simplify_eq. split; [reflexivity|]. split; [reflexivity|]. split.
        - split; [reflexivity|]. by apply Dangling_absent.
        - intros _ k v' Hk. left. exact Hk. }
    destruct (hasParentRef d) eqn:Hp.
    2:{ simplify_eq.
        assert (Hv : MergedView (datastore w) id d).
        { exists [d]. split; [by apply Chain_root|apply IsMerge_root]. }
        split; [reflexivity|]. split; [reflexivity|]. split; [exact Hv|].
        intros Hk k v' Hl. apply lookup_cacheLevel in Hl as [[-> ->]|Hl].
        - right. by rewrite (Hk _ _ Hd).
        - left. exact Hl. }
    assert (Hco1 : ChainCoherent (lookedUp id w) (Parent d)).
    { intros k v Hon Hl. apply Hco; [by eapply OnChain_up|exact Hl]. }
    assert (Hnf1 : ChainReadable (lookedUp id w) (Parent d)).
    { intros k Hon. apply Hnf. by eapply OnChain_up. }
    destruct (getLevel n (Parent d) (lookedUp id w)) as [[[err|p] w2]|] eqn:E;
      [| |discriminate].
    + simplify_eq.
      destruct (IH _ _ _ _ Hco1 Hnf1 E) as (S2 & F2 & [-> Hdang] & C2).
      split; [exact S2|]. split; [exact F2|]. split; [|exact C2].
      split; [reflexivity|]. by eapply Dangling_step.
    + simplify_eq.
      destruct (IH _ _ _ _ Hco1 Hnf1 E) as (S2 & F2 & (ds & Hchain & Hm) & C2).
      assert (Hv : MergedView (datastore w) id (MergeParentProperties d p)).
      { exists (d :: ds). split; [by apply Chain_step|by apply IsMerge_step]. }
      split; [exact S2|]. split; [exact F2|]. split; [exact Hv|].
      intros Hk k v' Hl. apply lookup_cacheLevel in Hl as [[-> ->]|Hl].
      * right. change (Key (MergeParentProperties d p)) with (Key d).
        by rewrite (Hk _ _ Hd).
      * exact (C2 Hk k v' Hl).
Qed.

(** The log of a resolution that returns starts with the cache lookup for
    the id. *)
Lemma getLevel_calls (n : nat) :
  forall id w r w',
    getLevel n id w = Some (r, w') ->
    exists rest, calls w' = calls w ++ MemcacheGet ("level:" +:+ id) :: rest.
Proof.
  induction n as [|n IH]; intros id w r w' H; [discriminate|].
  destruct (levelMiss_dec id w) as [[v Hv]|Hmiss].
  - rewrite (getLevel_hit n id v w Hv) in H. simplify_eq. by exists [].
  - rewrite getLevel_miss in H by assumption.
    assert (Hlk : calls (lookedUp id w)
                  = calls w ++ [MemcacheGet ("level:" +:+ id); Datastore (DsGet id)]).
    { unfold lookedUp, logCall; simpl. by rewrite <- app_assoc. }
    destruct (fails (DsGet id) w); [simplify_eq; rewrite Hlk; eauto|].
    destruct (datastore w !! id) as [d|]; [|simplify_eq; rewrite Hlk; eauto].
    destruct (hasParentRef d).
    + destruct (getLevel n (Parent d) (lookedUp id w)) as [[[err|p] w2]|] eqn:E;
        [| |discriminate]; simplify_eq;
        destruct (IH _ _ _ _ E) as (rest & Hc).
      * rewrite Hc, Hlk, <- app_assoc. eauto.
      * unfold cacheLevel, logCall; simpl. rewrite Hc, Hlk, <- !app_assoc. simpl. eauto.
    + simplify_eq. eexists. unfold cacheLevel, lookedUp, logCall; simpl.
      rewrite <- !app_assoc. reflexivity.
Qed.

Lemma newCalls_app (w w' : World) (ext : list Call) :
  calls w' = calls w ++ ext -> newCalls w w' = ext.
Proof. intros H. unfold newCalls. rewrite H. apply drop_app_length. Qed.

(** C2, as the code has it. On a cache miss where the entity is loaded
    from the datastore, the parent is resolved exactly when the entity has
    a non-empty parent reference; whether any of its fields is unset plays
    no part. With a parent reference the outcome is that of the parent's
    resolution (its error, or the merge with its level); without one the
    entity itself is cached and returned. *)
Theorem getLevel_parent_resolution (n : nat) (id : string) (d : DatastoreLevel.t) (w : World) :
  levelMiss id w ->
  fails (DsGet id) w = false ->
  datastore w !! id = Some d ->
  (if hasParentRef d then
     getLevel (S n) id w =
       match getLevel n (Parent d) (lookedUp id w) with
       | None => None
       | Some (inl err, w2) => Some (inl err, w2)
       | Some (inr p, w2) =>
         Some (inr (MergeParentProperties d p), cacheLevel (MergeParentProperties d p) w2)
       end
   else getLevel (S n) id w = Some (inr d, cacheLevel d (lookedUp id w))) /\
  (forall r w', getLevel (S n) id w = Some (r, w') ->
                (resolvesParent d id w w' <-> hasParentRef d = true)).
Proof.
  intros Hmiss Hf Hd.
  assert (Hlk : calls (lookedUp id w)
                = calls w ++ [MemcacheGet ("level:" +:+ id); Datastore (DsGet id)]).
  { unfold lookedUp, logCall; simpl. by rewrite <- app_assoc. }
  rewrite (getLevel_miss n id w Hmiss), Hf, Hd.
  destruct (hasParentRef d) eqn:Hp.
  - split; [reflexivity|]. intros r w' H. split; [reflexivity|]. intros _.
    destruct (getLevel n (Parent d) (lookedUp id w)) as [[[err|p] w2]|] eqn:E;
      [| |discriminate]; simplify_eq;
      destruct (getLevel_calls _ _ _ _ _ E) as (rest & Hc).
    + exists rest. apply newCalls_app. rewrite Hc, Hlk, <- app_assoc. reflexivity.
    + exists (rest ++ [MemcacheSet ("level:" +:+ Key (MergeParentProperties d p))]).
      apply newCalls_app. unfold cacheLevel, logCall; simpl.
      rewrite Hc, Hlk, <- !app_assoc. reflexivity.
  - split; [reflexivity|]. intros r w' H. split; [|discriminate].
    intros (rest & Hr). simplify_eq.
    rewrite (newCalls_app w (cacheLevel d (lookedUp id w))
               [MemcacheGet ("level:" +:+ id); Datastore (DsGet id);
                MemcacheSet ("level:" +:+ Key d)]) in Hr.
    + discriminate.
    + unfold cacheLevel, lookedUp, logCall; simpl. rewrite <- !app_assoc. reflexivity.
Qed.

Lemma getLevel_parent_resolution_witness :
  resolvesParent storedFull "X" fullChildWorld (worldAfter (getLevel 2 "X") fullChildWorld)
  <-> hasParentRef storedFull = true.
Proof.
  assert (Hmiss : levelMiss "X" fullChildWorld).
  { intros v H. vm_compute in H. discriminate H. }
  assert (Hf : fails (DsGet "X") fullChildWorld = false) by reflexivity.
  assert (Hd : datastore fullChildWorld !! "X" = Some storedFull) by (vm_compute; reflexivity).
  destruct (getLevel_parent_resolution 1 "X" storedFull fullChildWorld Hmiss Hf Hd) as [_ H].
  unfold worldAfter.
  destruct (getLevel 2 "X" fullChildWorld) as [[r w']|] eqn:E.
  - apply (H r w' eq_refl).
  - vm_compute in E. discriminate E.
Defined.

(** C2, as stated, fails: a level with a parent reference and every one of
    its ten fields set still has its parent resolved. *)
Lemma all_fields_set_parent_still_resolved :
  datastore fullChildWorld !! "X" = Some storedFull /\
  levelMiss "X" fullChildWorld /\
  someFieldUnset storedFull = false /\
  ~ (resolvesParent storedFull "X" fullChildWorld (worldAfter (getLevel 2 "X") fullChildWorld)
     <-> HasParent storedFull = true /\ someFieldUnset storedFull = true).
Proof.
  split; [vm_compute; reflexivity|].
  split; [intros v H; vm_compute in H; discriminate H|].
  split; [reflexivity|].
  intros [Hto _].
  assert (Hres : resolvesParent storedFull "X" fullChildWorld
                   (worldAfter (getLevel 2 "X") fullChildWorld)).
  { eexists. vm_compute. reflexivity. }
  destruct (Hto Hres) as [_ Hunset]. vm_compute in Hunset. discriminate Hunset.
Qed.

Lemma CacheCoherent_empty (w : World) : memcache w = ∅ -> CacheCoherent w.
Proof. intros H id v Hl. rewrite H, lookup_empty in Hl. discriminate. Qed.





Lemma GetCachedResource_response_miss (path : string) (w : World) :
  responseMiss path w ->
  exists err,
    GetCachedResource (responseEntryFor path) w
    = Some (inl err, logCall (MemcacheGet ("response:" +:+ path)) w).
Proof.
  intros Hmiss. unfold GetCachedResource, bind, memcacheGet.
  change (GetCacheKey (responseEntryFor path)) with ("response:" +:+ path).
  destruct (memcache w !! ("response:" +:+ path)) as [[v|e]|] eqn:E.
  - eexists. reflexivity.
  - destruct (Hmiss e E).
  - eexists. reflexivity.
Qed.

Lemma handleGet_miss (fuel : nat) (id : string) (w : World) :
  responseMiss (buildResourcePath id) w ->
  handleGet fuel id w =
    match getLevel fuel id (logCall (MemcacheGet ("response:" +:+ buildResourcePath id)) w) with
    | None => None
    | Some (inl ErrNoSuchEntity, w1) =>
      Some ((StatusNotFound, BodyText "Level does not exist"),
            cacheResponse (mkResponse (buildResourcePath id) StatusNotFound
                                      (BodyText "Level does not exist")) w1)
    | Some (inl err, w1) =>
      Some ((StatusInternalServerError, BodyError "Could not retrieve the level: " err), w1)
    | Some (inr level, w1) =>
      Some ((StatusOK, BodyLevel (ToJsonLevel level)),
            cacheResponse (mkResponse (buildResourcePath id) StatusOK
                                      (BodyLevel (ToJsonLevel level))) w1)
    end.
Proof.
  intros Hmiss.
  destruct (GetCachedResource_response_miss _ w Hmiss) as (err & Hc).
  unfold handleGet. unfold bind at 1.
  change ("/levels/" +:+ id) with (buildResourcePath id). rewrite Hc.
  unfold bind at 1.
  destruct (getLevel fuel id _) as [[[e|v] w1]|]; [|reflexivity|reflexivity].
  destruct e; reflexivity.
Qed.

Lemma getLevel_dangling_parent (fuel : nat) (id : string) (d : DatastoreLevel.t) (w : World) :
  datastore w !! id = Some d ->
  hasParentRef d = true ->
  datastore w !! Parent d = None ->
  levelMiss id w ->
  levelMiss (Parent d) w ->
  fails (DsGet id) w = false ->
  fails (DsGet (Parent d)) w = false ->
  getLevel (S (S fuel)) id w
  = Some (inl ErrNoSuchEntity, lookedUp (Parent d) (lookedUp id w)).
Proof.
  intros Hd Hp Habs Hm Hmp Hf Hfp.
  rewrite getLevel_miss by assumption. rewrite Hf, Hd, Hp.
  rewrite getLevel_miss by exact Hmp.
  change (fails (DsGet (Parent d)) (lookedUp id w)) with (fails (DsGet (Parent d)) w).
  change (datastore (lookedUp id w)) with (datastore w).
  rewrite Hfp, Habs. reflexivity.
Qed.

(** C4. An entity whose own record is stored but whose parent reference
    names an id that is not stored resolves to [ErrNoSuchEntity], the error
    an absent entity gives; nothing is cached for it, and [handleGet]
    answers 404.  Neither the entity nor the parent is served from the
    entity cache, and the two datastore reads do not fail. *)
Theorem dangling_parent_not_found (w : World) (id : string) (d : DatastoreLevel.t)
    (fuel : nat) :
  datastore w !! id = Some d ->
  hasParentRef d = true ->
  datastore w !! Parent d = None ->
  levelMiss id w ->
  levelMiss (Parent d) w ->
  fails (DsGet id) w = false ->
  fails (DsGet (Parent d)) w = false ->
  exists w',
    getLevel (S (S fuel)) id w = Some (inl ErrNoSuchEntity, w') /\
    memcache w' = memcache w /\
    resultOf (getLevel (S fuel) (Parent d)) w = Some (inl ErrNoSuchEntity) /\
    (responseMiss (buildResourcePath id) w ->
     resultOf (handleGet (S (S fuel)) id) w
     = Some (StatusNotFound, BodyText "Level does not exist")).
Proof.
  intros Hd Hp Habs Hm Hmp Hf Hfp.
  eexists. split; [by apply (getLevel_dangling_parent fuel id d w)|].
  split; [reflexivity|]. split.
  - unfold resultOf. rewrite getLevel_miss by exact Hmp. by rewrite Hfp, Habs.
  - intros Hrm. unfold resultOf. rewrite handleGet_miss by exact Hrm.
    rewrite (getLevel_dangling_parent fuel id d) by assumption. reflexivity.
Qed.

Lemma dangling_parent_not_found_witness :
  exists w',
    getLevel 2 "X" orphanWorld = Some (inl ErrNoSuchEntity, w') /\
    memcache w' = memcache orphanWorld /\
    resultOf (handleGet 2 "X") orphanWorld
    = Some (StatusNotFound, BodyText "Level does not exist").
Proof.
  destruct (dangling_parent_not_found orphanWorld "X" storedOrphan 0)
    as (w' & Hres & Hmc & _ & Hget).
  - vm_compute. reflexivity.
  - reflexivity.
  - vm_compute. reflexivity.
  - intros v H. vm_compute in H. discriminate H.
  - intros v H. vm_compute in H. discriminate H.
  - reflexivity.
  - reflexivity.
  - exists w'. split; [exact Hres|]. split; [exact Hmc|].
    apply Hget. intros e H. vm_compute in H. discriminate H.
Defined.

(** ** The listing *)

Lemma getLevel_frame (n : nat) :
  forall id w r w',
    getLevel n id w = Some (r, w') ->
    datastore w' = datastore w /\ failing w' = failing w /\
    match r with
    | inl _ => memcache w' = memcache w
    | inr v =>
      (memcache w' = memcache w /\ memcache w !! ("level:" +:+ id) = Some (LevelBlob v)) \/
      (exists d, datastore w !! id = Some d /\ Key v = Key d /\
                 memcache w' !! ("level:" +:+ Key v) = Some (LevelBlob v))
    end.
Proof.
  induction n as [|n IH]; intros id w r w' H; [discriminate|].
  destruct (levelMiss_dec id w) as [[v Hv]|Hmiss].
  - rewrite (getLevel_hit n id v w Hv) in H. simplify_eq.
    split; [reflexivity|]. split; [reflexivity|]. left. by split.
  - rewrite getLevel_miss in H by assumption.
    destruct (fails (DsGet id) w); [by simplify_eq|].
    destruct (datastore w !! id) as [d|] eqn:Hd; [|by simplify_eq].
    destruct (hasParentRef d).
    + destruct (getLevel n (Parent d) (lookedUp id w)) as [[[err|p] w2]|] eqn:E;
        [| |discriminate]; simplify_eq;
        destruct (IH _ _ _ _ E) as (S2 & F2 & M2).
      * split; [exact S2|]. split; [exact F2|]. exact M2.
      * split; [exact S2|]. split; [exact F2|]. right.
        exists d. split; [reflexivity|]. split; [reflexivity|].
        unfold cacheLevel. cbn [memcache logCall setMemcache]. apply lookup_insert_eq.
    + simplify_eq. split; [reflexivity|]. split; [reflexivity|]. right.
      exists d. split; [reflexivity|]. split; [reflexivity|].
      unfold cacheLevel. cbn [memcache logCall setMemcache]. apply lookup_insert_eq.
Qed.


Lemma NoGetFaults_ext (w w' : World) : failing w' = failing w -> NoGetFaults w -> NoGetFaults w'.
Proof. intros H Hnf id. unfold fails. rewrite H. apply Hnf. Qed.

Lemma loadEach_spec (s : gmap string DatastoreLevel.t) (n fuel : nat) :
  (n < fuel)%nat -> StoreKeyed s ->
  forall keys acc w,
    (forall k, k ∈ keys -> Ends s k n) ->
    datastore w = s -> CacheCoherent w -> NoGetFaults w ->
    exists vs w',
      loadEach fuel keys acc w = Some (acc ++ vs, w') /\
      Resolved s keys vs /\
      datastore w' = s /\ failing w' = failing w /\ CacheCoherent w' /\
      exists ext, calls w' = calls w ++ ext.
Proof.
  intros Hfuel Hkeyed keys.
  induction keys as [|k keys IH]; intros acc w Hends Hs Hco Hnf.
  - exists [], w. rewrite app_nil_r.
    split; [reflexivity|]. split; [apply Resolved_nil|]. split; [exact Hs|].
    split; [reflexivity|]. split; [exact Hco|].
    exists []. by rewrite app_nil_r.
  - destruct (getLevel_returns s k n (Hends k ltac:(left)) w Hs) as (r & w1 & E).
    apply (getLevel_fuel_le _ fuel) in E; [|lia].
    destruct (getLevel_sound _ _ _ _ _ (CacheCoherent_chain w k Hco)
                (NoGetFaults_chain w k Hnf) E) as (S1 & F1 & Hr & K1).
    destruct (getLevel_calls _ _ _ _ _ E) as (rest1 & L1).
    rewrite Hs in *.
    assert (C1 : CacheCoherent w1).
    { intros k' v' Hl. rewrite S1.
      destruct (K1 Hkeyed k' v' Hl) as [Hold|Hnew]; [|exact Hnew].
      rewrite <- Hs. by apply Hco. }
    assert (Hnf1 : NoGetFaults w1) by by eapply NoGetFaults_ext.
    assert (Hends' : forall k', k' ∈ keys -> Ends s k' n) by (intros; apply Hends; by right).
    destruct r as [err|v].
    + destruct Hr as [_ Hdang].
      destruct (IH acc w1 Hends' S1 C1 Hnf1) as (vs & w' & E2 & R2 & S2 & F2 & C2 & ext & L2).
      exists vs, w'. split; [cbn [loadEach]; unfold bind at 1; rewrite E; exact E2|].
      split; [by apply Resolved_skip|]. split; [exact S2|].
      split; [congruence|]. split; [exact C2|].
      eexists. rewrite L2, L1, <- app_assoc. reflexivity.
    + destruct (IH (acc ++ [v]) w1 Hends' S1 C1 Hnf1)
        as (vs & w' & E2 & R2 & S2 & F2 & C2 & ext & L2).
      exists (v :: vs), w'. split.
      * cbn [loadEach]. unfold bind at 1. rewrite E, E2, <- app_assoc. reflexivity.
      * split; [by apply Resolved_keep|]. split; [exact S2|].
        split; [congruence|]. split; [exact C2|].
        eexists. rewrite L2, L1, <- app_assoc. reflexivity.
Qed.

Lemma enumerated_ok (limit : nat) (w : World) :
  fails (DsQueryAll limit) w = false -> enumerated limit w = take limit (storedKeys w).
Proof. intros H. unfold enumerated. by rewrite H. Qed.

Lemma enumerated_failed (limit : nat) (w : World) :
  fails (DsQueryAll limit) w = true ->
  enumerated limit w = take (readBeforeFailure limit (failing w)) (take limit (storedKeys w)).
Proof. intros H. unfold enumerated. by rewrite H. Qed.

Lemma enumerated_length (limit : nat) (w : World) : (length (enumerated limit w) <= limit)%nat.
Proof.
  unfold enumerated. destruct (fails (DsQueryAll limit) w); rewrite ?length_take; lia.
Qed.

Lemma handleQuery_miss (fuel : nat) (w : World) :
  responseMiss queryAllKey w ->
  handleQuery fuel w =
    match loadEach fuel (enumerated 100 w) []
            (logCall (Datastore (DsQueryAll 100))
               (logCall (MemcacheGet ("response:" +:+ queryAllKey)) w)) with
    | None => None
    | Some (dsResults, w1) =>
      Some ((StatusOK, BodyLevels (ToJsonLevel <$> dsResults)),
            cacheResponse (mkResponse queryAllKey StatusOK
                                      (BodyLevels (ToJsonLevel <$> dsResults))) w1)
    end.
Proof.
  intros Hmiss.
  destruct (GetCachedResource_response_miss _ w Hmiss) as (err & Hc).
  unfold handleQuery. unfold bind at 1. rewrite Hc.
  unfold bind at 1. unfold queryAll.
  change (enumerated 100 (logCall (MemcacheGet ("response:" +:+ queryAllKey)) w))
    with (enumerated 100 w).
  unfold bind at 1. cbn [fst].
  match goal with
  | |- context [loadEach fuel ?ks [] ?w0] =>
    destruct (loadEach fuel ks [] w0) as [[res w1]|]; reflexivity
  end.
Qed.

(** The listing on a response-cache miss, with a coherent entity cache, a
    keyed store, no failing read and every enumerated chain ending within
    the fuel. *)
Lemma handleQuery_spec (n fuel : nat) (w : World) :
  responseMiss queryAllKey w ->
  CacheCoherent w -> NoGetFaults w -> StoreKeyed (datastore w) ->
  let keys := enumerated 100 w in
  (forall k, k ∈ keys -> Ends (datastore w) k n) ->
  (n < fuel)%nat ->
  exists vs w',
    handleQuery fuel w = Some ((StatusOK, BodyLevels (ToJsonLevel <$> vs)), w') /\
    Resolved (datastore w) keys vs /\
    memcache w' !! ("response:" +:+ queryAllKey)
      = Some (ResponseBlob (mkResponse queryAllKey StatusOK (BodyLevels (ToJsonLevel <$> vs)))) /\
    exists rest,
      newCalls w w'
      = MemcacheGet ("response:" +:+ queryAllKey) :: Datastore (DsQueryAll 100) :: rest.
Proof.
  intros Hmiss Hco Hnf Hkeyed keys Hends Hfuel.
  rewrite (handleQuery_miss fuel w Hmiss). fold keys.
  destruct (loadEach_spec (datastore w) n fuel Hfuel Hkeyed keys []
              (logCall (Datastore (DsQueryAll 100))
                 (logCall (MemcacheGet ("response:" +:+ queryAllKey)) w))
              Hends eq_refl Hco Hnf)
    as (vs & w1 & E & R & S1 & F1 & C1 & ext & L1).
  rewrite E. cbn [app].
  exists vs. eexists. split; [reflexivity|]. split; [exact R|]. split.
  - unfold cacheResponse. cbn [memcache logCall setMemcache Path]. apply lookup_insert_eq.
  - eexists. apply newCalls_app. unfold cacheResponse, logCall, setMemcache in *.
    cbn [calls] in *.
    rewrite L1, <- !app_assoc. reflexivity.
Qed.

Lemma Resolved_length s keys vs : Resolved s keys vs -> (length vs <= length keys)%nat.
Proof. induction 1; simpl; lia. Qed.

Lemma Resolved_elem s keys vs v :
  Resolved s keys vs -> v ∈ vs -> exists k, k ∈ keys /\ MergedView s k v.
Proof.
  induction 1 as [|k ks v' vs Hv _ IH|k ks vs _ _ IH]; intros Hin.
  - by apply elem_of_nil in Hin.
  - apply elem_of_cons in Hin as [->|Hin].
    + exists k. split; [left|exact Hv].
    + destruct (IH Hin) as (k' & Hk' & Hm). exists k'. split; [by right|exact Hm].
  - destruct (IH Hin) as (k' & Hk' & Hm). exists k'. split; [by right|exact Hm].
Qed.

Lemma Resolved_complete s keys vs k ds :
  Resolved s keys vs -> k ∈ keys -> Chain s k ds -> exists v, v ∈ vs /\ IsMerge ds v.
Proof.
  induction 1 as [|k' ks v' vs Hv _ IH|k' ks vs Hdang _ IH]; intros Hin Hchain.
  - by apply elem_of_nil in Hin.
  - apply elem_of_cons in Hin as [->|Hin].
    + destruct Hv as (ds' & Hc' & Hm).
      rewrite (Chain_deterministic _ _ _ _ Hc' Hchain) in Hm.
      exists v'. split; [left|exact Hm].
    + destruct (IH Hin Hchain) as (v & Hv' & Hm). exists v. split; [by right|exact Hm].
  - apply elem_of_cons in Hin as [->|Hin].
    + destruct (Chain_not_Dangling _ _ _ Hchain Hdang).
    + exact (IH Hin Hchain).
Qed.

Lemma MergedView_key s k v : StoreKeyed s -> MergedView s k v -> Key v = k.
Proof.
  intros Hkeyed (ds & Hchain & _ & Hown).
  destruct Hchain as [id d Hd _|id d ds Hd _ _]; destruct Hown as (-> & _);
    by apply Hkeyed.
Qed.

Lemma flat_store_Ends (s : gmap string DatastoreLevel.t) (k : string) :
  map_Forall (fun _ d => hasParentRef d = false) s -> Ends s k 0.
Proof.
  intros Hflat. destruct (s !! k) as [d|] eqn:E.
  - eapply Ends_root; [exact E|]. exact (Hflat k d E).
  - by apply Ends_absent.
Qed.

Lemma loadEach_bounds (fuel : nat) (keys : list string) :
  forall acc w res w',
    loadEach fuel keys acc w = Some (res, w') ->
    (length res <= length acc + length keys)%nat /\
    exists ext, calls w' = calls w ++ ext.
Proof.
  induction keys as [|k keys IH]; intros acc w res w' H.
  - cbn [loadEach] in H. unfold ret in H. simplify_eq.
    split; [lia|]. exists []. by rewrite app_nil_r.
  - cbn [loadEach] in H. unfold bind at 1 in H.
    destruct (getLevel fuel k w) as [[r w1]|] eqn:E; [|discriminate].
    destruct (getLevel_calls _ _ _ _ _ E) as (rest1 & L1).
    destruct r as [err|v]; apply IH in H as (Hlen & ext & L2).
    + split; [simpl; lia|]. eexists. rewrite L2, L1, <- app_assoc. reflexivity.
    + rewrite length_app in Hlen. split; [simpl in *; lia|].
      eexists. rewrite L2, L1, <- app_assoc. reflexivity.
Qed.

(** C6. The listing returns at most 100 levels however many are stored.
    On a response-cache miss it runs one keys-only query with limit 100,
    and whenever it returns, the reply is 200 with at most 100 levels.
    With a coherent entity cache, a keyed store, no failing read and
    chains that end within the fuel it does return, and the levels are the
    merged views of the enumerated keys that resolve, in query order. *)
Theorem listing_at_most_100 (n fuel : nat) (w : World) :
  responseMiss queryAllKey w ->
  (forall reply w',
     handleQuery fuel w = Some (reply, w') ->
     reply.1 = StatusOK /\
     (length (listedLevels (Some reply)) <= 100)%nat /\
     exists rest,
       newCalls w w'
       = MemcacheGet ("response:" +:+ queryAllKey) :: Datastore (DsQueryAll 100) :: rest) /\
  (fails (DsQueryAll 100) w = false ->
   CacheCoherent w -> NoGetFaults w -> StoreKeyed (datastore w) ->
   (forall k, k ∈ take 100 (storedKeys w) -> Ends (datastore w) k n) ->
   (n < fuel)%nat ->
   exists vs w',
     handleQuery fuel w = Some ((StatusOK, BodyLevels (ToJsonLevel <$> vs)), w') /\
     (length (ToJsonLevel <$> vs) <= 100)%nat /\
     Resolved (datastore w) (take 100 (storedKeys w)) vs).
Proof.
  intros Hmiss. split.
  - intros reply w' H. rewrite (handleQuery_miss fuel w Hmiss) in H.
    match type of H with
    | context [loadEach fuel ?ks [] ?w0] =>
      destruct (loadEach fuel ks [] w0) as [[res w1]|] eqn:E; [|discriminate];
        apply loadEach_bounds in E as (Hlen & ext & L);
        assert (Hks : (length ks <= 100)%nat)
          by apply enumerated_length
    end.
    simplify_eq. split; [reflexivity|]. split.
    + cbn [listedLevels]. rewrite length_fmap. simpl in Hlen. lia.
    + eexists. apply newCalls_app.
      unfold cacheResponse, logCall, setMemcache in *. cbn [calls] in *.
      rewrite L, <- !app_assoc. reflexivity.
  - intros Hq Hco Hnf Hkeyed Hends Hfuel.
    pose proof (handleQuery_spec n fuel w Hmiss Hco Hnf Hkeyed) as H.
    cbv zeta in H. rewrite (enumerated_ok 100 w Hq) in H.
    destruct (H Hends Hfuel) as (vs & w' & E & R & _).
    exists vs, w'. split; [exact E|]. split; [|exact R].
    rewrite length_fmap. etrans; [apply (Resolved_length _ _ _ R)|].
    rewrite length_take. lia.
Qed.

Lemma listing_at_most_100_witness :
  size (datastore crowdedWorld) = 101%nat /\
  length (listedLevels (resultOf (handleQuery 1) crowdedWorld)) = 100%nat /\
  exists vs w',
    handleQuery 1 crowdedWorld = Some ((StatusOK, BodyLevels (ToJsonLevel <$> vs)), w') /\
    (length (ToJsonLevel <$> vs) <= 100)%nat.
Proof.
  split; [vm_compute; reflexivity|]. split; [vm_compute; reflexivity|].
  assert (Hflat : map_Forall (fun _ d => hasParentRef d = false) (datastore crowdedWorld)).
  { apply (bool_decide_unpack _). vm_compute. exact I. }
  destruct (listing_at_most_100 0 1 crowdedWorld) as [_ H].
  { intros e H. vm_compute in H. discriminate H. }
  destruct H as (vs & w' & E & Hlen & _).
  - reflexivity.
  - apply CacheCoherent_empty. reflexivity.
  - intros k. reflexivity.
  - change (map_Forall (fun id d => Key d = id) (datastore crowdedWorld)).
    apply (bool_decide_unpack _). vm_compute. exact I.
  - intros k _. by apply flat_store_Ends.
  - lia.
  - exists vs, w'. split; [exact E|exact Hlen].
Defined.

Lemma loadEach_listed (s : gmap string DatastoreLevel.t) (n fuel : nat) :
  (n < fuel)%nat ->
  forall keys acc w,
    (forall k, k ∈ keys -> Ends s k n) ->
    datastore w = s ->
    exists vs w',
      loadEach fuel keys acc w = Some (acc ++ vs, w') /\ Listed fuel keys w vs w'.
Proof.
  intros Hfuel keys.
  induction keys as [|k keys IH]; intros acc w Hends Hs.
  - exists [], w. rewrite app_nil_r. split; [reflexivity|apply Listed_nil].
  - destruct (getLevel_returns s k n (Hends k ltac:(left)) w Hs) as (r & w1 & E).
    apply (getLevel_fuel_le _ fuel) in E; [|lia].
    destruct (getLevel_frame _ _ _ _ _ E) as (S1 & _ & _).
    assert (Hends' : forall k', k' ∈ keys -> Ends s k' n) by (intros; apply Hends; by right).
    destruct r as [err|v].
    + destruct (IH acc w1 Hends' ltac:(congruence)) as (vs & w' & E2 & L2).
      exists vs, w'. split; [cbn [loadEach]; unfold bind at 1; rewrite E; exact E2|].
      by eapply Listed_skip.
    + destruct (IH (acc ++ [v]) w1 Hends' ltac:(congruence)) as (vs & w' & E2 & L2).
      exists (v :: vs), w'. split.
      * cbn [loadEach]. unfold bind at 1. rewrite E, E2, <- app_assoc. reflexivity.
      * by eapply Listed_keep.
Qed.

(** Every key of a run is looked up, whatever became of the keys before
    it. *)
Lemma Listed_calls (fuel : nat) (keys : list string) (w w' : World)
    (vs : list DatastoreLevel.t) :
  Listed fuel keys w vs w' ->
  exists ext,
    calls w' = calls w ++ ext /\
    forall k, k ∈ keys -> MemcacheGet ("level:" +:+ k) ∈ ext.
Proof.
  induction 1 as [w|k ks w v w1 vs w' E _ (ext & L & IH)|k ks w err w1 vs w' E _ (ext & L & IH)].
  - exists []. split; [by rewrite app_nil_r|]. intros k Hk. by apply elem_of_nil in Hk.
  - destruct (getLevel_calls _ _ _ _ _ E) as (rest & L1).
    exists ((MemcacheGet ("level:" +:+ k) :: rest) ++ ext). split.
    + rewrite L, L1, <- app_assoc. reflexivity.
    + intros k' Hk'. apply elem_of_app. apply elem_of_cons in Hk' as [->|Hk'].
      * left. left.
      * right. by apply IH.
  - destruct (getLevel_calls _ _ _ _ _ E) as (rest & L1).
    exists ((MemcacheGet ("level:" +:+ k) :: rest) ++ ext). split.
    + rewrite L, L1, <- app_assoc. reflexivity.
    + intros k' Hk'. apply elem_of_app. apply elem_of_cons in Hk' as [->|Hk'].
      * left. left.
      * right. by apply IH.
Qed.

Lemma Listed_length (fuel : nat) (keys : list string) (w w' : World)
    (vs : list DatastoreLevel.t) :
  Listed fuel keys w vs w' -> (length vs <= length keys)%nat.
Proof. induction 1; simpl; lia. Qed.

(** The listing on a response-cache miss when every walk from an
    enumerated key ends within the fuel: nothing is assumed of the entity
    cache nor of the datastore reads. *)
Lemma handleQuery_listed (n fuel : nat) (w : World) :
  responseMiss queryAllKey w ->
  (forall k, k ∈ enumerated 100 w -> Ends (datastore w) k n) ->
  (n < fuel)%nat ->
  exists vs w1,
    Listed fuel (enumerated 100 w)
      (logCall (Datastore (DsQueryAll 100))
         (logCall (MemcacheGet ("response:" +:+ queryAllKey)) w)) vs w1 /\
    handleQuery fuel w
    = Some ((StatusOK, BodyLevels (ToJsonLevel <$> vs)),
            cacheResponse (mkResponse queryAllKey StatusOK (BodyLevels (ToJsonLevel <$> vs)))
                          w1).
Proof.
  intros Hmiss Hends Hfuel.
  rewrite (handleQuery_miss fuel w Hmiss).
  destruct (loadEach_listed (datastore w) n fuel Hfuel (enumerated 100 w) []
              (logCall (Datastore (DsQueryAll 100))
                 (logCall (MemcacheGet ("response:" +:+ queryAllKey)) w))
              Hends eq_refl) as (vs & w1 & E & L).
  rewrite E. cbn [app]. exists vs, w1. split; [exact L|reflexivity].
Qed.

(** C7. On a response-cache miss, when every walk from an enumerated id
    ends within the fuel, the listing returns 200 whatever the entity cache
    holds and whichever datastore reads fail.  The enumerated ids are
    resolved one after the other: an id whose resolution fails, with
    whatever error, contributes nothing, an id whose resolution succeeds
    contributes its level, and the resolution of every enumerated id is
    started, whatever became of the ids before it. *)
Theorem listing_skips_unresolvable (n fuel : nat) (w : World) :
  responseMiss queryAllKey w ->
  (forall k, k ∈ enumerated 100 w -> Ends (datastore w) k n) ->
  (n < fuel)%nat ->
  exists vs w1 w',
    handleQuery fuel w = Some ((StatusOK, BodyLevels (ToJsonLevel <$> vs)), w') /\
    Listed fuel (enumerated 100 w)
      (logCall (Datastore (DsQueryAll 100))
         (logCall (MemcacheGet ("response:" +:+ queryAllKey)) w)) vs w1 /\
    (forall k, k ∈ enumerated 100 w -> MemcacheGet ("level:" +:+ k) ∈ newCalls w w').
Proof.
  intros Hmiss Hends Hfuel.
  destruct (handleQuery_listed n fuel w Hmiss Hends Hfuel) as (vs & w1 & L & E).
  exists vs, w1. eexists. split; [exact E|]. split; [exact L|].
  destruct (Listed_calls _ _ _ _ _ L) as (ext & Lc & Hall).
  intros k Hk.
  rewrite (newCalls_app w _
             ([MemcacheGet ("response:" +:+ queryAllKey); Datastore (DsQueryAll 100)] ++ ext
              ++ [MemcacheSet ("response:" +:+ queryAllKey)])).
  - apply elem_of_app. right. apply elem_of_app. left. by apply Hall.
  - unfold cacheResponse, logCall, setMemcache in *. cbn [calls Path] in *.
    rewrite Lc, <- !app_assoc. reflexivity.
Qed.

Lemma listing_skips_unresolvable_witness :
  enumerated 100 leafUnreadable = ["C"; "A"; "B"] /\
  resultOf (getLevel 3 "C") leafUnreadable = Some (inl ErrDatastore) /\
  JsonLevel.Key <$> listedLevels (resultOf (handleQuery 3) leafUnreadable)
  = [Some "A"; Some "B"] /\
  JsonLevel.Key <$> listedLevels (resultOf (handleQuery 2) mixedWorld) = [Some "A"] /\
  exists vs w1 w',
    handleQuery 3 leafUnreadable = Some ((StatusOK, BodyLevels (ToJsonLevel <$> vs)), w') /\
    Listed 3 ["C"; "A"; "B"]
      (logCall (Datastore (DsQueryAll 100))
         (logCall (MemcacheGet ("response:" +:+ queryAllKey)) leafUnreadable)) vs w1 /\
    MemcacheGet "level:B" ∈ newCalls leafUnreadable w'.
Proof.
  assert (Hkeys : enumerated 100 leafUnreadable = ["C"; "A"; "B"]) by (vm_compute; reflexivity).
  assert (HA : datastore leafUnreadable !! "A" = Some storedA) by (vm_compute; reflexivity).
  assert (HB : datastore leafUnreadable !! "B" = Some storedB) by (vm_compute; reflexivity).
  assert (HC : datastore leafUnreadable !! "C" = Some storedC) by (vm_compute; reflexivity).
  assert (EA : Ends (datastore leafUnreadable) "A" 2)
    by (eapply Ends_root; [exact HA|reflexivity]).
  assert (EB : Ends (datastore leafUnreadable) "B" 2).
  { eapply Ends_step; [exact HB|reflexivity|]. eapply Ends_root; [exact HA|reflexivity]. }
  split; [exact Hkeys|]. split; [vm_compute; reflexivity|]. split; [vm_compute; reflexivity|].
  split; [vm_compute; reflexivity|].
  destruct (listing_skips_unresolvable 2 3 leafUnreadable) as (vs & w1 & w' & E & L & Hall).
  - intros e H. vm_compute in H. discriminate H.
  - intros k Hk. rewrite Hkeys in Hk.
    apply elem_of_cons in Hk as [->|Hk]; [|apply elem_of_cons in Hk as [->|Hk]];
      [| |apply elem_of_cons in Hk as [->|Hk]].
    + eapply Ends_step; [exact HC|reflexivity|].
      eapply Ends_step; [exact HB|reflexivity|]. eapply Ends_root; [exact HA|reflexivity].
    + exact EA.
    + exact EB.
    + by apply elem_of_nil in Hk.
  - lia.
  - rewrite Hkeys in L. exists vs, w1, w'. split; [exact E|]. split; [exact L|].
    apply (Hall "B"). rewrite Hkeys. right. right. left.
Defined.

(** C10, as amended.  When the keys-only enumeration query fails and the
    response cache has no listing, the error is ignored: the listing goes
    on with the keys the failed query handed back, which are those it had
    read, and replies 200 with the levels that resolve from them, an empty
    list when it handed back none; that reply is stored in the response
    cache under the listing key.  Every walk from a key handed back ends
    within the fuel. *)
Theorem listing_when_enumeration_fails (n fuel : nat) (w : World) :
  fails (DsQueryAll 100) w = true ->
  responseMiss queryAllKey w ->
  (forall k, k ∈ enumerated 100 w -> Ends (datastore w) k n) ->
  (n < fuel)%nat ->
  exists vs w1 w',
    handleQuery fuel w = Some ((StatusOK, BodyLevels (ToJsonLevel <$> vs)), w') /\
    enumerated 100 w
    = take (readBeforeFailure 100 (failing w)) (take 100 (storedKeys w)) /\
    Listed fuel (enumerated 100 w)
      (logCall (Datastore (DsQueryAll 100))
         (logCall (MemcacheGet ("response:" +:+ queryAllKey)) w)) vs w1 /\
    (enumerated 100 w = [] -> vs = []) /\
    w' = cacheResponse (mkResponse queryAllKey StatusOK (BodyLevels (ToJsonLevel <$> vs))) w1 /\
    memcache w' !! ("response:" +:+ queryAllKey)
    = Some (ResponseBlob (mkResponse queryAllKey StatusOK (BodyLevels (ToJsonLevel <$> vs)))).
Proof.
  intros Hq Hmiss Hends Hfuel.
  destruct (handleQuery_listed n fuel w Hmiss Hends Hfuel) as (vs & w1 & L & E).
  exists vs, w1. eexists. split; [exact E|].
  split; [by apply enumerated_failed|]. split; [exact L|]. split.
  - intros Hnil. pose proof (Listed_length _ _ _ _ _ L) as Hlen.
    rewrite Hnil in Hlen. destruct vs; [reflexivity|simpl in Hlen; lia].
  - split; [reflexivity|].
    unfold cacheResponse. cbn [memcache logCall setMemcache Path]. apply lookup_insert_eq.
Qed.

Lemma listing_when_enumeration_fails_witness :
  (resultOf (handleQuery 3) enumerationDown = Some (StatusOK, BodyLevels []) /\
   memcache (worldAfter (handleQuery 3) enumerationDown) !! ("response:" +:+ queryAllKey)
   = Some (ResponseBlob (mkResponse queryAllKey StatusOK (BodyLevels [])))) /\
  exists vs w1 w',
    handleQuery 3 enumerationCut = Some ((StatusOK, BodyLevels (ToJsonLevel <$> vs)), w') /\
    Listed 3 ["C"; "A"]
      (logCall (Datastore (DsQueryAll 100))
         (logCall (MemcacheGet ("response:" +:+ queryAllKey)) enumerationCut)) vs w1 /\
    memcache w' !! ("response:" +:+ queryAllKey)
    = Some (ResponseBlob (mkResponse queryAllKey StatusOK (BodyLevels (ToJsonLevel <$> vs)))).
Proof.
  split.
  - destruct (listing_when_enumeration_fails 0 1 enumerationDown)
      as (vs & w1 & w' & E & _ & _ & Hnil & _ & Hc).
    + reflexivity.
    + intros e H. vm_compute in H. discriminate H.
    + intros k Hk. vm_compute in Hk. by apply elem_of_nil in Hk.
    + lia.
    + rewrite (Hnil ltac:(vm_compute; reflexivity)) in E, Hc.
      split; [vm_compute; reflexivity|]. vm_compute. reflexivity.
  - assert (Hkeys : enumerated 100 enumerationCut = ["C"; "A"]) by (vm_compute; reflexivity).
    assert (HA : datastore enumerationCut !! "A" = Some storedA) by (vm_compute; reflexivity).
    assert (HB : datastore enumerationCut !! "B" = Some storedB) by (vm_compute; reflexivity).
    assert (HC : datastore enumerationCut !! "C" = Some storedC) by (vm_compute; reflexivity).
    destruct (listing_when_enumeration_fails 2 3 enumerationCut)
      as (vs & w1 & w' & E & _ & L & _ & _ & Hc).
    + reflexivity.
    + intros e H. vm_compute in H. discriminate H.
    + intros k Hk. rewrite Hkeys in Hk.
      apply elem_of_cons in Hk as [->|Hk]; [|apply elem_of_cons in Hk as [->|Hk]].
      * eapply Ends_step; [exact HC|reflexivity|].
        eapply Ends_step; [exact HB|reflexivity|]. eapply Ends_root; [exact HA|reflexivity].
      * eapply Ends_root; [exact HA|reflexivity].
      * by apply elem_of_nil in Hk.
    + lia.
    + rewrite Hkeys in L. exists vs, w1, w'. split; [exact E|]. split; [exact L|exact Hc].
Defined.

(** C10, as stated, fails.  The enumeration query fails after it has read
    the keys of C and of A; nothing is cached; the listing replies 200
    with the two levels that resolve from these keys, not with an empty
    list, and caches that reply. *)
Lemma failed_enumeration_lists_keys_read :
  fails (DsQueryAll 100) enumerationCut = true /\
  responseMiss queryAllKey enumerationCut /\
  (resultOf (queryAll 100) enumerationCut = Some (["C"; "A"], Some ErrDatastore)) /\
  (fst <$> resultOf (handleQuery 3) enumerationCut) = Some StatusOK /\
  JsonLevel.Key <$> listedLevels (resultOf (handleQuery 3) enumerationCut)
  = [Some "C"; Some "A"] /\
  resultOf (handleQuery 3) enumerationCut <> Some (StatusOK, BodyLevels []) /\
  is_Some (memcache (worldAfter (handleQuery 3) enumerationCut)
             !! ("response:" +:+ queryAllKey)).
Proof.
  split; [reflexivity|].
  split; [intros e H; vm_compute in H; discriminate H|].
  split; [vm_compute; reflexivity|]. split; [vm_compute; reflexivity|].
  split; [vm_compute; reflexivity|].
  split; [intros H; vm_compute in H; discriminate H|].
  vm_compute. eauto.
Qed.

(** ** The cascade *)

Lemma lookup_evictAll (ids : list string) (m : gmap string blob) (k : string) :
  evictAll ids m !! k = if bool_decide (k ∈ ids ≫= cacheKeysOf) then None else m !! k.
Proof.
  revert m. induction ids as [|id ids IH]; intros m.
  - change (evictAll [] m) with m. change ([] ≫= cacheKeysOf) with (@nil string).
    case_bool_decide as H; [|reflexivity]. by apply elem_of_nil in H.
  - change (evictAll (id :: ids) m)
      with (evictAll ids (delete ("level:" +:+ id)
                            (delete ("response:" +:+ buildResourcePath id) m))).
    rewrite IH.
    change ((id :: ids) ≫= cacheKeysOf) with (cacheKeysOf id ++ (ids ≫= cacheKeysOf)).
    destruct (decide (k ∈ ids ≫= cacheKeysOf)) as [Hin|Hout].
    + rewrite !bool_decide_eq_true_2; [reflexivity| |exact Hin].
      apply elem_of_app. by right.
    + rewrite (bool_decide_eq_false_2 _ Hout).
      destruct (decide (k ∈ cacheKeysOf id)) as [Hin'|Hout'].
      * rewrite bool_decide_eq_true_2 by (apply elem_of_app; by left).
        unfold cacheKeysOf in Hin'.
        apply elem_of_cons in Hin' as [->|Hin'].
        -- rewrite lookup_delete_ne by discriminate. apply lookup_delete_eq.
        -- apply elem_of_cons in Hin' as [->|Hin']; [apply lookup_delete_eq|].
           by apply elem_of_nil in Hin'.
      * rewrite bool_decide_eq_false_2.
        -- unfold cacheKeysOf in Hout'.
           rewrite !lookup_delete_ne; [reflexivity| |];
             intros <-; apply Hout'; [left|right; left].
        -- intros Hin. apply elem_of_app in Hin as [?|?]; contradiction.
Qed.

(** What an upsert whose write succeeds leaves in memcache: the two keys of
    the id, those of its direct children (unless the children query fails)
    and the listing key are gone; every other entry, so also that of a
    grandchild, is still there. *)
Lemma handlePost_memcache (range : gmap string float32 -> list (string * float32))
    (id : string) (level : JsonLevel.t) (w : World) (k : string) :
  fails (DsPut id) w = false ->
  let w' := worldAfter (handlePost range id (Some level)) w in
  memcache w' !! k =
    if bool_decide (k = "response:" +:+ queryAllKey) then None
    else if bool_decide (k ∈ cacheKeysOf id) then None
    else if fails (DsQueryChildren id) w then memcache w !! k
    else if bool_decide (k ∈ childrenOf id (datastore w') ≫= cacheKeysOf) then None
    else memcache w !! k.
Proof.
  intros Hput w'. subst w'. unfold worldAfter.
  destruct (handlePost_spec range id level w Hput) as (w' & E & S & _ & Mc).
  rewrite E, Mc, S.
  case_bool_decide as Hq; [subst k; apply lookup_delete_eq|].
  rewrite lookup_delete_ne by congruence.
  destruct (fails (DsQueryChildren id) w).
  - rewrite lookup_evictAll.
    change ([id] ≫= cacheKeysOf) with (cacheKeysOf id ++ []). rewrite app_nil_r.
    reflexivity.
  - rewrite !lookup_evictAll.
    change ([id] ≫= cacheKeysOf) with (cacheKeysOf id ++ []). rewrite app_nil_r.
    repeat case_bool_decide; reflexivity.
Qed.

(** C1 on three generations.  C is a child of B and B a child of A, and C
    has been read, so both cache tiers hold C's merged view with rows 1.
    After the root's rows are updated to 5 the two entries of C are still
    cached, a read of C is answered from them with rows 1, and only a
    resolution from the store gives rows 5. *)
Theorem cascade_misses_grandchild :
  Chain (datastore afterRootUpdate) "C" [storedC; storedB; updatedA] /\
  is_Some (memcache threeGenerations !! "level:C") /\
  is_Some (memcache threeGenerations !! "response:/levels/C") /\
  memcache afterRootUpdate !! "level:C" = memcache threeGenerations !! "level:C" /\
  memcache afterRootUpdate !! "response:/levels/C"
  = memcache threeGenerations !! "response:/levels/C" /\
  memcache afterRootUpdate !! "level:B" = None /\
  memcache afterRootUpdate !! "level:A" = None /\
  JsonLevel.Rows <$> repliedLevel (resultOf (handleGet 3 "C") afterRootUpdate) = Some (Some 1) /\
  nearest FRows [storedC; storedB; updatedA] = Some (VInt 5) /\
  JsonLevel.Rows <$>
    repliedLevel (resultOf (handleGet 3 "C")
                    (mkWorld (datastore afterRootUpdate) [] ∅ [])) = Some (Some 5).
Proof.
  split.
  { eapply Chain_step; [vm_compute; reflexivity|reflexivity|].
    eapply Chain_step; [vm_compute; reflexivity|reflexivity|].
    eapply Chain_root; [vm_compute; reflexivity|reflexivity]. }
  split; [vm_compute; eauto|]. split; [vm_compute; eauto|].
  repeat split; vm_compute; reflexivity.
Qed.

(** * Further properties of the levels service *)

(** ** What a resolution leaves behind *)

(** X1. A resolution that fails caches nothing: whatever the error and however
    deep it arose, memcache and the store are as before the call. *)
Theorem failed_resolution_caches_nothing (fuel : nat) (id : string) (err : error)
    (w w' : World) :
  getLevel fuel id w = Some (inl err, w') ->
  memcache w' = memcache w /\ datastore w' = datastore w.
Proof.
  intros H. destruct (getLevel_frame _ _ _ _ _ H) as (S & _ & Mc). by split.
Qed.

Lemma failed_resolution_caches_nothing_witness :
  memcache (worldAfter (getLevel 2 "X") orphanWorld) = memcache orphanWorld /\
  datastore (worldAfter (getLevel 2 "X") orphanWorld) = datastore orphanWorld.
Proof.
  apply (failed_resolution_caches_nothing 2 "X" ErrNoSuchEntity orphanWorld).
  vm_compute. reflexivity.
Defined.

(** ** Replies and the response cache *)

Lemma GetCachedResource_response_hit (path : string) (entry : responseCacheEntry) (w : World) :
  memcache w !! ("response:" +:+ path) = Some (ResponseBlob entry) ->
  GetCachedResource (responseEntryFor path) w
  = Some (inr entry, logCall (MemcacheGet ("response:" +:+ path)) w).
Proof.
  intros H. unfold GetCachedResource, bind, memcacheGet.
  change (GetCacheKey (responseEntryFor path)) with ("response:" +:+ path).
  rewrite H. reflexivity.
Qed.

Lemma responseMiss_dec (path : string) (w : World) :
  (exists e, memcache w !! ("response:" +:+ path) = Some (ResponseBlob e)) \/ responseMiss path w.
Proof.
  destruct (memcache w !! ("response:" +:+ path)) as [[v|e]|] eqn:E.
  - right. intros e. rewrite E. discriminate.
  - left. eauto.
  - right. intros e. rewrite E. discriminate.
Qed.

Lemma handleGet_hit (fuel : nat) (id : string) (entry : responseCacheEntry) (w : World) :
  memcache w !! ("response:" +:+ buildResourcePath id) = Some (ResponseBlob entry) ->
  handleGet fuel id w
  = Some ((Code entry, Response entry),
          logCall (MemcacheGet ("response:" +:+ buildResourcePath id)) w).
Proof.
  intros H. unfold handleGet. unfold bind at 1.
  change ("/levels/" +:+ id) with (buildResourcePath id).
  rewrite (GetCachedResource_response_hit _ entry w H). reflexivity.
Qed.

Lemma handleQuery_hit (fuel : nat) (entry : responseCacheEntry) (w : World) :
  memcache w !! ("response:" +:+ queryAllKey) = Some (ResponseBlob entry) ->
  handleQuery fuel w
  = Some ((Code entry, Response entry), logCall (MemcacheGet ("response:" +:+ queryAllKey)) w).
Proof.
  intros H. unfold handleQuery. unfold bind at 1.
  rewrite (GetCachedResource_response_hit _ entry w H). reflexivity.
Qed.

(** X4. A read that answers 500 caches nothing: memcache and the store are as
    before, so the next read tries the datastore again. *)
Theorem failed_read_caches_nothing (fuel : nat) (id : string) (body : ResponseBody)
    (w w' : World) :
  handleGet fuel id w = Some ((StatusInternalServerError, body), w') ->
  memcache w' = memcache w /\ datastore w' = datastore w.
Proof.
  intros H.
  destruct (responseMiss_dec (buildResourcePath id) w) as [[e He]|Hmiss].
  - rewrite (handleGet_hit fuel id e w He) in H. by simplify_eq.
  - rewrite (handleGet_miss fuel id w Hmiss) in H.
    destruct (getLevel fuel id _) as [[[err|v] w1]|] eqn:E; [| |discriminate].
    + destruct (getLevel_frame _ _ _ _ _ E) as (S & _ & Mc).
      destruct err; simplify_eq; by split.
    + simplify_eq.
Qed.

Lemma failed_read_caches_nothing_witness :
  resultOf (handleGet 2 "A") rootUnreadable
  = Some (StatusInternalServerError, BodyError "Could not retrieve the level: " ErrDatastore) /\
  memcache (worldAfter (handleGet 2 "A") rootUnreadable) = ∅.
Proof.
  split; [vm_compute; reflexivity|].
  unfold worldAfter.
  destruct (handleGet 2 "A" rootUnreadable)
    as [[[code body] w']|] eqn:E; [|vm_compute in E; discriminate E].
  assert (Hcode : code = StatusInternalServerError) by (vm_compute in E; by simplify_eq).
  subst code.
  apply (failed_read_caches_nothing 2 "A" body rootUnreadable w' E).
Defined.

(** ** Walks that never end *)

(** X6. When the walk from an id along the parent references never ends (a
    level that is its own ancestor), nothing on the walk is in the entity
    cache and its reads do not fail, the resolution does not return,
    whatever the fuel. *)
Theorem endless_walk_never_resolves (id : string) (w : World) :
  (forall n, ~ Ends (datastore w) id n) ->
  (forall k, OnChain (datastore w) id k -> levelMiss k w) ->
  ChainReadable w id ->
  forall fuel, getLevel fuel id w = None.
Proof.
  intros Hend Hmiss Hread fuel. revert id w Hend Hmiss Hread.
  induction fuel as [|fuel IH]; intros id w Hend Hmiss Hread; [reflexivity|].
  rewrite getLevel_miss by (apply Hmiss; apply OnChain_here).
  rewrite (Hread id (OnChain_here _ _)).
  destruct (datastore w !! id) as [d|] eqn:Hd.
  2:{ destruct (Hend 0%nat). by apply Ends_absent. }
  destruct (hasParentRef d) eqn:Hp.
  2:{ destruct (Hend 0%nat). by eapply Ends_root. }
  rewrite (IH (Parent d) (lookedUp id w)); [reflexivity| | |].
  - intros n Hn. apply (Hend (S n)). by eapply Ends_step.
  - intros k Hon v. apply (Hmiss k). by eapply OnChain_up.
  - intros k Hon. apply Hread. by eapply OnChain_up.
Qed.

Lemma endless_walk_never_resolves_witness :
  datastore loopWorld !! "L" = Some storedLoop /\
  Parent storedLoop = "L" /\
  getLevel 1000 "L" loopWorld = None.
Proof.
  assert (HL : datastore loopWorld !! "L" = Some storedLoop) by (vm_compute; reflexivity).
  split; [exact HL|]. split; [reflexivity|].
  apply (endless_walk_never_resolves "L" loopWorld).
  - intros n. induction n as [|n IH]; intros H; inversion H; subst; simplify_eq.
    by apply IH.
  - intros k _ v H. vm_compute in H. discriminate H.
  - intros k _. reflexivity.
Defined.

(** ** Invariants of the handlers *)

Lemma loadEach_frame (fuel : nat) (keys : list string) :
  forall acc w res w',
    loadEach fuel keys acc w = Some (res, w') ->
    datastore w' = datastore w /\ failing w' = failing w.
Proof.
  induction keys as [|k keys IH]; intros acc w res w' H.
  - cbn [loadEach] in H. unfold ret in H. by simplify_eq.
  - cbn [loadEach] in H. unfold bind at 1 in H.
    destruct (getLevel fuel k w) as [[r w1]|] eqn:E; [|discriminate].
    destruct (getLevel_frame _ _ _ _ _ E) as (S1 & F1 & _).
    destruct r as [err|v]; apply IH in H as (S2 & F2); split; congruence.
Qed.

Lemma handleGet_frame (fuel : nat) (id : string) (reply : Reply) (w w' : World) :
  handleGet fuel id w = Some (reply, w') ->
  datastore w' = datastore w /\ failing w' = failing w.
Proof.
  intros H.
  destruct (responseMiss_dec (buildResourcePath id) w) as [[e He]|Hmiss].
  - rewrite (handleGet_hit fuel id e w He) in H. by simplify_eq.
  - rewrite (handleGet_miss fuel id w Hmiss) in H.
    destruct (getLevel fuel id _) as [[[err|v] w1]|] eqn:E; [| |discriminate].
    + destruct (getLevel_frame _ _ _ _ _ E) as (S & F & _).
      destruct err; simplify_eq; by split.
    + destruct (getLevel_frame _ _ _ _ _ E) as (S & F & _). simplify_eq. by split.
Qed.

Lemma handleQuery_frame (fuel : nat) (reply : Reply) (w w' : World) :
  handleQuery fuel w = Some (reply, w') ->
  datastore w' = datastore w /\ failing w' = failing w.
Proof.
  intros H.
  destruct (responseMiss_dec queryAllKey w) as [[e He]|Hmiss].
  - rewrite (handleQuery_hit fuel e w He) in H. by simplify_eq.
  - rewrite (handleQuery_miss fuel w Hmiss) in H.
    destruct (loadEach fuel _ [] _) as [[res w1]|] eqn:E; [|discriminate].
    destruct (loadEach_frame _ _ _ _ _ _ E) as (S & F). simplify_eq. by split.
Qed.

(** X7. The two read routes never write the datastore: after [GET /levels/:id]
    or [GET /levels] the store is the one before the request, whatever was
    or was not cached and whichever datastore call failed. *)
Theorem reads_never_write (fuel : nat) (range : gmap string float32 -> list (string * float32))
    (request : Request) (reply : Reply) (w w' : World) :
  isRead request = true ->
  serve fuel range request w = Some (reply, w') ->
  datastore w' = datastore w.
Proof.
  intros Hread H. destruct request; try discriminate; cbn [serve] in H.
  - by destruct (handleGet_frame _ _ _ _ _ H).
  - by destruct (handleQuery_frame _ _ _ _ H).
Qed.

Lemma reads_never_write_witness :
  datastore (worldAfter (serve 3 map_to_list (GetLevel "C")) coldGenerations)
  = datastore coldGenerations /\
  datastore (worldAfter (serve 3 map_to_list QueryLevels) coldGenerations)
  = datastore coldGenerations.
Proof.
  split; unfold worldAfter.
  - destruct (serve 3 map_to_list (GetLevel "C") coldGenerations) as [[reply w']|] eqn:E;
      [|reflexivity].
    exact (reads_never_write 3 map_to_list (GetLevel "C") reply coldGenerations w' eq_refl E).
  - destruct (serve 3 map_to_list QueryLevels coldGenerations) as [[reply w']|] eqn:E;
      [|reflexivity].
    exact (reads_never_write 3 map_to_list QueryLevels reply coldGenerations w' eq_refl E).
Defined.

Lemma handlePost_store (range : gmap string float32 -> list (string * float32))
    (id : string) (body : option JsonLevel.t) (w : World) :
  exists reply w',
    handlePost range id body w = Some (reply, w') /\
    ((reply.1 <> StatusOK /\ datastore w' = datastore w /\ memcache w' = memcache w) \/
     (exists level, body = Some level /\ reply = (StatusOK, BodyNil) /\
                    datastore w' = <[id := ToDatastoreLevel range (withKey id level)]> (datastore w))).
Proof.
  destruct body as [level|].
  2:{ eexists _, _. split; [reflexivity|]. left. by repeat split. }
  destruct (fails (DsPut id) w) eqn:Hput.
  - eexists _, _. split.
    + unfold handlePost. cbn [ToDatastoreLevel withKey Key JsonLevel.Key derefOr].
      unfold bind at 1. unfold datastorePut. rewrite Hput. reflexivity.
    + left. by repeat split.
  - destruct (handlePost_spec range id level w Hput) as (w' & E & S & _).
    eexists _, _. split; [exact E|]. right. exists level. by repeat split.
Qed.

Lemma handleDelete_store (id : string) (w : World) :
  exists reply w',
    handleDelete id w = Some (reply, w') /\
    ((reply.1 <> StatusOK /\ datastore w' = datastore w /\ memcache w' = memcache w) \/
     (reply = (StatusOK, BodyNil) /\ datastore w' = delete id (datastore w))).
Proof.
  destruct (fails (DsDelete id) w) eqn:Hdel.
  - eexists _, _. split.
    + unfold handleDelete. unfold bind at 1. unfold datastoreDelete. rewrite Hdel. reflexivity.
    + left. by repeat split.
  - destruct (handleDelete_spec id w Hdel) as (w' & E & S & _).
    eexists _, _. split; [exact E|]. right. by split.
Qed.

Lemma serve_keeps_StoreKeyed (fuel : nat)
    (range : gmap string float32 -> list (string * float32))
    (request : Request) (reply : Reply) (w w' : World) :
  StoreKeyed (datastore w) ->
  serve fuel range request w = Some (reply, w') ->
  StoreKeyed (datastore w').
Proof.
  intros Hkeyed H. destruct request as [id|id body|id body|id|]; cbn [serve] in H.
  - destruct (handleGet_frame _ _ _ _ _ H) as [-> _]. exact Hkeyed.
  - destruct (handlePost_store range id body w) as (r & w1 & E & Hcase).
    rewrite E in H. simplify_eq.
    destruct Hcase as [(_ & -> & _)|(level & _ & _ & ->)]; [exact Hkeyed|].
    apply map_Forall_insert_2; [reflexivity|exact Hkeyed].
  - unfold handlePut in H.
    destruct (handlePost_store range id body w) as (r & w1 & E & Hcase).
    rewrite E in H. simplify_eq.
    destruct Hcase as [(_ & -> & _)|(level & _ & _ & ->)]; [exact Hkeyed|].
    apply map_Forall_insert_2; [reflexivity|exact Hkeyed].
  - destruct (handleDelete_store id w) as (r & w1 & E & Hcase).
    rewrite E in H. simplify_eq.
    destruct Hcase as [(_ & -> & _)|(_ & ->)]; [exact Hkeyed|].
    by apply map_Forall_delete.
  - destruct (handleQuery_frame _ _ _ _ H) as [-> _]. exact Hkeyed.
Qed.

(** X8. Every stored level carries the id it is stored under: the property
    holds of the empty store and no sequence of requests breaks it,
    whatever the request bodies say and whichever calls fail. *)
Theorem stored_keys_match_ids (fuel : nat)
    (range : gmap string float32 -> list (string * float32))
    (requests : list Request) (w w' : World) :
  StoreKeyed (datastore w) ->
  serveAll fuel range requests w = Some w' ->
  StoreKeyed (datastore w').
Proof.
  revert w. induction requests as [|request requests IH]; intros w Hkeyed H.
  - cbn in H. by simplify_eq.
  - cbn [serveAll] in H.
    destruct (serve fuel range request w) as [[reply w1]|] eqn:E; [|discriminate].
    apply (IH w1); [|exact H]. by eapply serve_keeps_StoreKeyed.
Qed.

Lemma stored_keys_match_ids_witness :
  exists w',
    serveAll 3 map_to_list sampleSession emptyWorld = Some w' /\
    StoreKeyed (datastore w') /\
    dom (datastore w') = ({["A"; "C"]} : gset string).
Proof.
  destruct (serveAll 3 map_to_list sampleSession emptyWorld) as [w'|] eqn:E;
    [|vm_compute in E; discriminate E].
  exists w'. split; [reflexivity|]. split.
  - apply (stored_keys_match_ids 3 map_to_list sampleSession emptyWorld w'); [|exact E].
    intros id d H. unfold emptyWorld in H. cbn [datastore] in H.
    rewrite lookup_empty in H. discriminate H.
  - vm_compute in E. simplify_eq. vm_compute. reflexivity.
Defined.

(** X9. A mutation that does not answer 200 (a body that does not parse, a
    write the datastore refuses) has changed nothing: the store and
    memcache are as before, so nothing was invalidated. *)
Theorem refused_mutation_changes_nothing (fuel : nat)
    (range : gmap string float32 -> list (string * float32))
    (request : Request) (reply : Reply) (w w' : World) :
  isRead request = false ->
  serve fuel range request w = Some (reply, w') ->
  reply.1 <> StatusOK ->
  datastore w' = datastore w /\ memcache w' = memcache w.
Proof.
  intros Hmut H Hcode.
  destruct request as [id|id body|id body|id|]; try discriminate; cbn [serve] in H.
  - destruct (handlePost_store range id body w) as (r & w1 & E & Hcase).
    rewrite E in H. simplify_eq.
    destruct Hcase as [(_ & S & Mc)|(level & _ & -> & _)]; [by split|by destruct Hcode].
  - unfold handlePut in H.
    destruct (handlePost_store range id body w) as (r & w1 & E & Hcase).
    rewrite E in H. simplify_eq.
    destruct Hcase as [(_ & S & Mc)|(level & _ & -> & _)]; [by split|by destruct Hcode].
  - destruct (handleDelete_store id w) as (r & w1 & E & Hcase).
    rewrite E in H. simplify_eq.
    destruct Hcase as [(_ & S & Mc)|(-> & _)]; [by split|by destruct Hcode].
Qed.

Lemma refused_mutation_changes_nothing_witness :
  resultOf (serve 0 map_to_list (PostLevel "A" None)) threeGenerations
  = Some (StatusBadRequest, BodyError "Failed to unmarshal the JSON: " ErrUnmarshal) /\
  datastore (worldAfter (serve 0 map_to_list (PostLevel "A" None)) threeGenerations)
  = datastore threeGenerations /\
  memcache (worldAfter (serve 0 map_to_list (PostLevel "A" None)) threeGenerations)
  = memcache threeGenerations.
Proof.
  split; [reflexivity|].
  unfold worldAfter.
  destruct (serve 0 map_to_list (PostLevel "A" None) threeGenerations)
    as [[reply w']|] eqn:E; [|discriminate E].
  apply (refused_mutation_changes_nothing 0 map_to_list (PostLevel "A" None) reply
           threeGenerations w'); [reflexivity|exact E|].
  cbn in E. unfold ret in E. simplify_eq. discriminate.
Defined.

(** ** Reads and the coherence of the entity cache *)

Lemma CacheCoherent_cacheLevel (id : string) (v : levelCacheEntry) (w : World) :
  Key v = id -> MergedView (datastore w) id v ->
  CacheCoherent w -> CacheCoherent (cacheLevel v w).
Proof.
  intros Hk Hv Hco id' v' H.
  apply lookup_cacheLevel in H as [[-> ->]|H].
  - by rewrite Hk.
  - by apply Hco.
Qed.

Lemma CacheCoherent_cacheResponse (entry : responseCacheEntry) (w : World) :
  CacheCoherent w -> CacheCoherent (cacheResponse entry w).
Proof.
  intros Hco id v H. unfold cacheResponse in H. cbn [memcache logCall setMemcache] in H.
  rewrite lookup_insert_ne in H by discriminate. by apply Hco.
Qed.

Lemma getLevel_coherent (n : nat) :
  forall id w r w',
    CacheCoherent w -> StoreKeyed (datastore w) ->
    getLevel n id w = Some (r, w') ->
    CacheCoherent w' /\
    match r with
    | inr v => MergedView (datastore w) id v
    | inl _ => True
    end.
Proof.
  induction n as [|n IH]; intros id w r w' Hco Hkeyed H; [discriminate|].
  destruct (levelMiss_dec id w) as [[v Hv]|Hmiss].
  - rewrite (getLevel_hit n id v w Hv) in H. simplify_eq. split; [exact Hco|by apply Hco].
  - rewrite getLevel_miss in H by assumption.
    destruct (fails (DsGet id) w); [by simplify_eq|].
    destruct (datastore w !! id) as [d|] eqn:Hd; [|by simplify_eq].
    destruct (hasParentRef d) eqn:Hp.
    + destruct (getLevel n (Parent d) (lookedUp id w)) as [[[err|p] w2]|] eqn:E;
        [| |discriminate]; simplify_eq;
        destruct (IH _ (lookedUp id w) _ _ Hco Hkeyed E) as (C2 & Hr);
        destruct (getLevel_frame _ _ _ _ _ E) as (S2 & _ & _).
      * by split.
      * destruct Hr as (ds & Hchain & Hm).
        assert (Hv : MergedView (datastore w) id (MergeParentProperties d p)).
        { exists (d :: ds). split; [by apply Chain_step|by apply IsMerge_step]. }
        split; [|exact Hv].
        apply (CacheCoherent_cacheLevel id); [exact (Hkeyed _ _ Hd)| |exact C2].
        rewrite S2. exact Hv.
    + simplify_eq.
      assert (Hv : MergedView (datastore w) id d).
      { exists [d]. split; [by apply Chain_root|apply IsMerge_root]. }
      split; [|exact Hv].
      apply (CacheCoherent_cacheLevel id); [exact (Hkeyed _ _ Hd)|exact Hv|exact Hco].
Qed.

Lemma loadEach_coherent (fuel : nat) (keys : list string) :
  forall acc w res w',
    CacheCoherent w -> StoreKeyed (datastore w) ->
    loadEach fuel keys acc w = Some (res, w') -> CacheCoherent w'.
Proof.
  induction keys as [|k keys IH]; intros acc w res w' Hco Hkeyed H.
  - cbn [loadEach] in H. unfold ret in H. by simplify_eq.
  - cbn [loadEach] in H. unfold bind at 1 in H.
    destruct (getLevel fuel k w) as [[r w1]|] eqn:E; [|discriminate].
    destruct (getLevel_coherent _ _ _ _ _ Hco Hkeyed E) as (C1 & _).
    destruct (getLevel_frame _ _ _ _ _ E) as (S1 & _ & _).
    rewrite <- S1 in Hkeyed.
    destruct r as [err|v]; exact (IH _ _ _ _ C1 Hkeyed H).
Qed.

(** X10. The two read routes keep the entity cache coherent with the store:
    when every cached level is the merged view of its id and the store is
    keyed, the same holds after [GET /levels/:id] or [GET /levels],
    whichever datastore call failed on the way. *)
Theorem reads_keep_cache_coherent (fuel : nat)
    (range : gmap string float32 -> list (string * float32))
    (request : Request) (reply : Reply) (w w' : World) :
  isRead request = true ->
  CacheCoherent w -> StoreKeyed (datastore w) ->
  serve fuel range request w = Some (reply, w') ->
  CacheCoherent w'.
Proof.
  intros Hread Hco Hkeyed H. destruct request as [id| | | |]; try discriminate; cbn [serve] in H.
  - destruct (responseMiss_dec (buildResourcePath id) w) as [[e He]|Hmiss].
    + rewrite (handleGet_hit fuel id e w He) in H. by simplify_eq.
    + rewrite (handleGet_miss fuel id w Hmiss) in H.
      assert (Hco0 : CacheCoherent
                       (logCall (MemcacheGet ("response:" +:+ buildResourcePath id)) w))
        by exact Hco.
      destruct (getLevel fuel id _) as [[[err|v] w1]|] eqn:E; [| |discriminate].
      * destruct (getLevel_coherent _ _ _ _ _ Hco0 Hkeyed E) as (C1 & _).
        destruct err; simplify_eq; try exact C1.
        by apply CacheCoherent_cacheResponse.
      * destruct (getLevel_coherent _ _ _ _ _ Hco0 Hkeyed E) as (C1 & _).
        simplify_eq. by apply CacheCoherent_cacheResponse.
  - destruct (responseMiss_dec queryAllKey w) as [[e He]|Hmiss].
    + rewrite (handleQuery_hit fuel e w He) in H. by simplify_eq.
    + rewrite (handleQuery_miss fuel w Hmiss) in H.
      assert (Hco0 : CacheCoherent
                       (logCall (Datastore (DsQueryAll 100))
                          (logCall (MemcacheGet ("response:" +:+ queryAllKey)) w)))
        by exact Hco.
      destruct (loadEach fuel _ [] _) as [[res w1]|] eqn:E; [|discriminate].
      apply (loadEach_coherent _ _ _ _ _ _ Hco0 Hkeyed) in E.
      simplify_eq. by apply CacheCoherent_cacheResponse.
Qed.

Lemma StoreKeyed_coldGenerations : StoreKeyed (datastore coldGenerations).
Proof.
  change (map_Forall (fun id d => Key d = id) (datastore coldGenerations)).
  apply (bool_decide_unpack _). vm_compute. exact I.
Qed.

Lemma reads_keep_cache_coherent_witness :
  is_Some (memcache (worldAfter (serve 3 map_to_list QueryLevels) coldGenerations) !! "level:C")
  /\ CacheCoherent (worldAfter (serve 3 map_to_list QueryLevels) coldGenerations).
Proof.
  split; [vm_compute; eauto|].
  unfold worldAfter.
  destruct (serve 3 map_to_list QueryLevels coldGenerations) as [[reply w']|] eqn:E;
    [|vm_compute in E; discriminate E].
  apply (reads_keep_cache_coherent 3 map_to_list QueryLevels reply coldGenerations w');
    [reflexivity| |exact StoreKeyed_coldGenerations|exact E].
  apply CacheCoherent_empty. reflexivity.
Defined.

(** X11. A 200 reply that [GET /levels/:id] computes (the response cache
    missing) carries the merged view of the id in the store, in JSON form,
    provided the entity cache is coherent and the store keyed; no
    assumption on the fuel or on failing calls is needed. *)
Theorem computed_read_is_merged_view (fuel : nat) (id : string) (body : ResponseBody)
    (w w' : World) :
  CacheCoherent w -> StoreKeyed (datastore w) ->
  responseMiss (buildResourcePath id) w ->
  handleGet fuel id w = Some ((StatusOK, body), w') ->
  exists v, MergedView (datastore w) id v /\ body = BodyLevel (ToJsonLevel v).
Proof.
  intros Hco Hkeyed Hmiss H.
  rewrite (handleGet_miss fuel id w Hmiss) in H.
  assert (Hco0 : CacheCoherent
                   (logCall (MemcacheGet ("response:" +:+ buildResourcePath id)) w))
    by exact Hco.
  destruct (getLevel fuel id _) as [[[err|v] w1]|] eqn:E; [| |discriminate].
  - destruct err; simplify_eq.
  - destruct (getLevel_coherent _ _ _ _ _ Hco0 Hkeyed E) as (_ & Hv).
    simplify_eq. by exists v.
Qed.

Lemma computed_read_is_merged_view_witness :
  exists v,
    MergedView (datastore coldGenerations) "C" v /\
    resultOf (handleGet 3 "C") coldGenerations = Some (StatusOK, BodyLevel (ToJsonLevel v)).
Proof.
  destruct (handleGet 3 "C" coldGenerations) as [[[code body] w']|] eqn:E;
    [|vm_compute in E; discriminate E].
  assert (Hcode : code = StatusOK) by (vm_compute in E; by simplify_eq). subst code.
  destruct (computed_read_is_merged_view 3 "C" body coldGenerations w') as (v & Hv & ->).
  - apply CacheCoherent_empty. reflexivity.
  - exact StoreKeyed_coldGenerations.
  - intros e H. vm_compute in H. discriminate H.
  - exact E.
  - exists v. split; [exact Hv|]. unfold resultOf. by rewrite E.
Defined.

(** ** What a mutation evicts, and what the next read sees *)

Lemma elem_of_childrenOf (parentId c : string) (s : gmap string DatastoreLevel.t) :
  c ∈ childrenOf parentId s <-> exists d, s !! c = Some d /\ Parent d = parentId.
Proof.
  unfold childrenOf. rewrite list_elem_of_fmap. split.
  - intros ([k d] & -> & Hin). apply list_elem_of_filter in Hin as [Hp Hin].
    apply elem_of_map_to_list in Hin. by exists d.
  - intros (d & Hd & Hp). exists (c, d). split; [reflexivity|].
    apply list_elem_of_filter. split; [exact Hp|]. by apply elem_of_map_to_list.
Qed.

Lemma evictAll_None (ids : list string) (m : gmap string blob) (k : string) :
  m !! k = None -> evictAll ids m !! k = None.
Proof. intros H. rewrite lookup_evictAll, H. by case_bool_decide. Qed.

Lemma evictAll_evicts (ids : list string) (m : gmap string blob) (id : string) :
  id ∈ ids ->
  evictAll ids m !! ("response:" +:+ buildResourcePath id) = None /\
  evictAll ids m !! ("level:" +:+ id) = None.
Proof.
  intros Hin. rewrite !lookup_evictAll.
  rewrite !bool_decide_eq_true_2; [by split| |];
    apply list_elem_of_bind; exists id; (split; [|exact Hin]); unfold cacheKeysOf.
  - right. left.
  - left.
Qed.

(** The memcache an invalidation leaves, entry by entry. *)
Lemma invalidated_lookups (id : string) (children : list string) (failed : bool)
    (m m' : gmap string blob) :
  m' = delete ("response:" +:+ queryAllKey)
         (if failed then evictAll [id] m else evictAll children (evictAll [id] m)) ->
  m' !! ("response:" +:+ queryAllKey) = None /\
  m' !! ("response:" +:+ buildResourcePath id) = None /\
  m' !! ("level:" +:+ id) = None /\
  (failed = false -> forall c, c ∈ children ->
     m' !! ("response:" +:+ buildResourcePath c) = None /\ m' !! ("level:" +:+ c) = None).
Proof.
  intros ->.
  assert (Hdel : forall (m0 : gmap string blob) k,
             m0 !! k = None -> delete ("response:" +:+ queryAllKey) m0 !! k = None).
  { intros m0 k H. rewrite lookup_delete. by case_decide. }
  destruct (evictAll_evicts [id] m id ltac:(left)) as [Hr Hl].
  split; [apply lookup_delete_eq|].
  split; [|split].
  - apply Hdel. destruct failed; [exact Hr|by apply evictAll_None].
  - apply Hdel. destruct failed; [exact Hl|by apply evictAll_None].
  - intros -> c Hc.
    destruct (evictAll_evicts children (evictAll [id] m) c Hc) as [Hcr Hcl].
    split; by apply Hdel.
Qed.



(** X13. A mutation evicts nothing else: a memcache entry whose key is not the
    listing key, not one of the two keys of [id], and not one of the two
    keys of a stored level whose parent field is [id], is after a
    successful upsert or delete of [id] what it was before; so the entries
    of a grandchild stay. *)
Theorem mutation_evicts_nothing_else
    (range : gmap string float32 -> list (string * float32))
    (id : string) (level : JsonLevel.t) (w : World) (k : string) :
  k <> "response:" +:+ queryAllKey ->
  k ∉ cacheKeysOf id ->
  (forall c d, datastore w !! c = Some d -> Parent d = id -> k ∉ cacheKeysOf c) ->
  (fails (DsPut id) w = false ->
   memcache (worldAfter (handlePost range id (Some level)) w) !! k = memcache w !! k) /\
  (fails (DsDelete id) w = false ->
   memcache (worldAfter (handleDelete id) w) !! k = memcache w !! k).
Proof.
  intros Hl Hid Hchildren.
  assert (Hown : bool_decide (k ∈ [id] ≫= cacheKeysOf) = false).
  { apply bool_decide_eq_false_2. intros Hin. apply list_elem_of_bind in Hin as (c & Hk & Hc).
    apply list_elem_of_singleton in Hc as ->. contradiction. }
  assert (Hkeep : forall (s' : gmap string DatastoreLevel.t) (m' : gmap string blob),
             (forall c d, s' !! c = Some d -> c <> id -> datastore w !! c = Some d) ->
             m' = delete ("response:" +:+ queryAllKey)
                    (if fails (DsQueryChildren id) w then evictAll [id] (memcache w)
                     else evictAll (childrenOf id s') (evictAll [id] (memcache w))) ->
             m' !! k = memcache w !! k).
  { intros s' m' Hs' ->. rewrite lookup_delete_ne by congruence.
    destruct (fails (DsQueryChildren id) w).
    - by rewrite lookup_evictAll, Hown.
    - rewrite !lookup_evictAll, Hown. rewrite bool_decide_eq_false_2; [reflexivity|].
      intros Hin. apply list_elem_of_bind in Hin as (c & Hk & Hc).
      apply elem_of_childrenOf in Hc as (d & Hd & Hp).
      destruct (decide (c = id)) as [->|Hne]; [contradiction|].
      exact (Hchildren c d (Hs' c d Hd Hne) Hp Hk). }
  split.
  - intros Hput.
    destruct (handlePost_spec range id level w Hput) as (w' & E & Hs & _ & Mc).
    unfold worldAfter. rewrite E.
    apply (Hkeep (<[id := ToDatastoreLevel range (withKey id level)]> (datastore w))); [|exact Mc].
    intros c d Hd Hne. by rewrite lookup_insert_ne in Hd.
  - intros Hdel.
    destruct (handleDelete_spec id w Hdel) as (w' & E & Hs & _ & Mc).
    unfold worldAfter. rewrite E.
    apply (Hkeep (delete id (datastore w))); [|exact Mc].
    intros c d Hd Hne. by rewrite lookup_delete_ne in Hd.
Qed.

Lemma mutation_evicts_nothing_else_witness :
  is_Some (memcache threeGenerations !! "level:C") /\
  memcache (worldAfter (handlePost map_to_list "A" (Some (gridLevel 5 2))) threeGenerations)
    !! "level:C"
  = memcache threeGenerations !! "level:C" /\
  memcache (worldAfter (handleDelete "A") threeGenerations) !! "level:C"
  = memcache threeGenerations !! "level:C".
Proof.
  split; [vm_compute; eauto|].
  destruct (mutation_evicts_nothing_else map_to_list "A" (gridLevel 5 2) threeGenerations
              "level:C") as [Hpost Hdel].
  - discriminate.
  - intros Hin. vm_compute in Hin. repeat (apply elem_of_cons in Hin as [Hin|Hin];
      [discriminate Hin|]). by apply elem_of_nil in Hin.
  - intros c d Hd Hp Hin.
    apply elem_of_map_to_list in Hd.
    assert (Hall : map_to_list (datastore threeGenerations)
                   = [("C", storedC); ("A", storedA); ("B", storedB)])
      by (vm_compute; reflexivity).
    rewrite Hall in Hd.
    repeat (apply elem_of_cons in Hd as [Hd|Hd]; [simplify_eq|]);
      try (by apply elem_of_nil in Hd); try discriminate Hp.
    unfold cacheKeysOf in Hin.
    repeat (apply elem_of_cons in Hin as [Hin|Hin]; [discriminate Hin|]).
    by apply elem_of_nil in Hin.
  - split; [by apply Hpost|by apply Hdel].
Defined.

Lemma levelMiss_of_None (id : string) (w : World) :
  memcache w !! ("level:" +:+ id) = None -> levelMiss id w.
Proof. intros H v. rewrite H. discriminate. Qed.

Lemma responseMiss_of_None (path : string) (w : World) :
  memcache w !! ("response:" +:+ path) = None -> responseMiss path w.
Proof. intros H e. rewrite H. discriminate. Qed.

Lemma getLevel_root_miss (n : nat) (id : string) (d : DatastoreLevel.t) (w : World) :
  levelMiss id w -> fails (DsGet id) w = false ->
  datastore w !! id = Some d -> hasParentRef d = false ->
  getLevel (S n) id w = Some (inr d, cacheLevel d (lookedUp id w)).
Proof. intros Hm Hf Hd Hp. rewrite getLevel_miss by exact Hm. by rewrite Hf, Hd, Hp. Qed.


Lemma fails_ext (op : DsOp) (w w' : World) : failing w' = failing w -> fails op w' = fails op w.
Proof. unfold fails. by intros ->. Qed.






(** X16. An update of a parent reaches its direct children.  When [c] is
    stored with the parent reference [p] and [p] is upserted as a level
    without a parent, the next read of [c] answers 200 with [c] merged
    with the new [p], whatever the caches held before the upsert. *)
Theorem parent_update_reaches_child (range : gmap string float32 -> list (string * float32))
    (fuel : nat) (p c : string) (level : JsonLevel.t) (dc : DatastoreLevel.t) (w : World) :
  datastore w !! c = Some dc ->
  Parent dc = p -> hasParentRef dc = true -> c <> p ->
  hasParentRef (ToDatastoreLevel range (withKey p level)) = false ->
  fails (DsPut p) w = false -> fails (DsQueryChildren p) w = false ->
  fails (DsGet c) w = false -> fails (DsGet p) w = false ->
  resultOf (handleGet (S (S fuel)) c) (worldAfter (handlePost range p (Some level)) w)
  = Some (StatusOK,
          BodyLevel (ToJsonLevel
                       (MergeParentProperties dc (ToDatastoreLevel range (withKey p level))))).
Proof.
  intros Hc Hpar Hhas Hne Hroot Hput Hq Hgc Hgp.
  destruct (handlePost_spec range p level w Hput) as (w1 & E & Hs & F & Mc).
  unfold worldAfter. rewrite E. rewrite Hq in Mc.
  destruct (invalidated_lookups p _ false _ _ Mc) as (_ & _ & Hlp & Hch).
  assert (Hc1 : datastore w1 !! c = Some dc) by (rewrite Hs, lookup_insert_ne; done).
  destruct (Hch eq_refl c) as [Hrc Hlc].
  { apply elem_of_childrenOf. exists dc. by rewrite <- Hs. }
  unfold resultOf. rewrite (handleGet_miss _ _ _ (responseMiss_of_None _ _ Hrc)).
  set (w2 := logCall (MemcacheGet ("response:" +:+ buildResourcePath c)) w1).
  rewrite (getLevel_miss (S fuel) c w2) by (by apply levelMiss_of_None).
  rewrite (fails_ext (DsGet c) w w2 F), Hgc.
  change (datastore w2) with (datastore w1). rewrite Hc1, Hhas, Hpar.
  rewrite (getLevel_root_miss fuel p (ToDatastoreLevel range (withKey p level))
             (lookedUp c w2)).
  - reflexivity.
  - by apply levelMiss_of_None.
  - rewrite <- Hgp. by apply fails_ext.
  - change (datastore (lookedUp c w2)) with (datastore w1). rewrite Hs. apply lookup_insert_eq.
  - exact Hroot.
Qed.

Lemma parent_update_reaches_child_witness :
  JsonLevel.Rows <$> repliedLevel (resultOf (handleGet 2 "C") familyWorld) = Some (Some 1) /\
  JsonLevel.Rows <$>
    repliedLevel (resultOf (handleGet 2 "C")
                    (worldAfter (handlePost map_to_list "P" (Some (gridLevel 5 2))) familyWorld))
  = Some (Some 5).
Proof.
  split; [vm_compute; reflexivity|].
  rewrite (parent_update_reaches_child map_to_list 0 "P" "C" (gridLevel 5 2) storedChild
             familyWorld); [reflexivity|vm_compute; reflexivity|try reflexivity..].
  discriminate.
Defined.

(** ** Merging and converting levels *)

Ltac split_flags :=
  unfold mergedFlag, mergedValue;
  repeat (match goal with
          | |- context [negb ?b] => is_var b; destruct b
          | |- context [_ && ?b] => is_var b; destruct b
          | |- context [if ?b then _ else _] => is_var b; destruct b
          end; cbn [negb andb]);
  reflexivity.

(** X17. Merging is associative: merging a level with its parent and the
    result with the grandparent gives the same struct as merging the level
    with the parent's own merge with the grandparent. *)
Theorem MergeParentProperties_assoc (a b c : DatastoreLevel.t) :
  MergeParentProperties (MergeParentProperties a b) c
  = MergeParentProperties a (MergeParentProperties b c).
Proof.
  destruct a, b, c. unfold MergeParentProperties.
  cbn [Key HasKey Parent HasParent Name HasName Rows HasRows Columns HasColumns
       Health HasHealth Duration HasDuration ComboTimer HasComboTimer
       UnitDelayMultiplier HasUnitDelayMultiplier MaxActiveUnits HasMaxActiveUnits
       SpawnsPerSecond HasSpawnsPerSecond SpawnFrequency HasSpawnFrequency].
  f_equal; split_flags.
Qed.

(** X18. A level that sets all ten fields inherits nothing: merging it with any
    parent leaves it as it is. *)
Theorem complete_level_inherits_nothing (d p : DatastoreLevel.t) :
  someFieldUnset d = false ->
  MergeParentProperties d p = d.
Proof.
  intros H. destruct d. unfold someFieldUnset in H. cbn in H.
  repeat match type of H with
         | _ || _ = false => apply orb_false_elim in H as [? H]
         end.
  repeat match goal with
         | Hb : negb (isSet (ptrIf ?b _)) = false |- _ => destruct b; [clear Hb|discriminate Hb]
         end.
  reflexivity.
Qed.

Lemma complete_level_inherits_nothing_witness :
  MergeParentProperties storedFull storedA = storedFull.
Proof. apply (complete_level_inherits_nothing storedFull storedA). reflexivity. Defined.

Lemma fold_insert_other (l : list datastoreSpawnFrequency) (m : gmap string float32)
    (k : string) :
  (forall e, e ∈ l -> UnitType e <> k) ->
  fold_left (fun m e => <[UnitType e := UnitSpawnFrequency e]> m) l m !! k = m !! k.
Proof.
  revert m. induction l as [|e l IH]; intros m Hne; [reflexivity|].
  cbn [fold_left]. rewrite IH.
  - apply lookup_insert_ne. apply Hne. left.
  - intros e' He'. apply Hne. by right.
Qed.

(** X19. When the spawn slice of a datastore level names a unit type more than
    once, the JSON map keeps the frequency of the last element with that
    unit type. *)
Theorem spawnMap_last_wins (before after : list datastoreSpawnFrequency)
    (e : datastoreSpawnFrequency) :
  (forall e', e' ∈ after -> UnitType e' <> UnitType e) ->
  spawnMap (before ++ e :: after) !! UnitType e = Some (UnitSpawnFrequency e).
Proof.
  intros Hlast. unfold spawnMap. rewrite fold_left_app. cbn [fold_left].
  rewrite fold_insert_other by exact Hlast. apply lookup_insert_eq.
Qed.

Lemma spawnMap_last_wins_witness :
  spawnMap repeatedSpawns !! "grunt_fire" = Some 3 /\
  size (spawnMap repeatedSpawns) = 2%nat.
Proof.
  split; [|vm_compute; reflexivity].
  apply (spawnMap_last_wins [mkSpawn "grunt_fire" 1; mkSpawn "grunt_ice" 2]
           [] (mkSpawn "grunt_fire" 3)).
  intros e' He'. by apply elem_of_nil in He'.
Defined.

Lemma ptrIf_unwrap {A B : Type} (wrap : A -> B) (b b' : bool) (x x' : A) :
  (forall a a', wrap a = wrap a' -> a = a') ->
  ptrIf b (wrap x) = ptrIf b' (wrap x') -> ptrIf b x = ptrIf b' x'.
Proof.
  intros Hinj H. destruct b, b'; try discriminate H; [|reflexivity].
  cbn in *. f_equal. apply Hinj. congruence.
Qed.

(** X20. The JSON form shows set fields only: two datastore levels with the
    same key and parent reference (with their flags) and the same value
    for every field that is set have the same JSON form, whatever is left
    in the fields whose flag is lowered. *)
Theorem ToJsonLevel_shows_set_fields_only (v v' : DatastoreLevel.t) :
  (forall f, fieldOf f v = fieldOf f v') ->
  ptrIf (HasKey v) (Key v) = ptrIf (HasKey v') (Key v') ->
  ptrIf (HasParent v) (Parent v) = ptrIf (HasParent v') (Parent v') ->
  ToJsonLevel v = ToJsonLevel v'.
Proof.
  intros Hf Hk Hp.
  assert (Hspawn : ptrIf (HasSpawnFrequency v) (SpawnFrequency v)
                   = ptrIf (HasSpawnFrequency v') (SpawnFrequency v')).
  { apply (ptrIf_unwrap VSpawn); [congruence|exact (Hf FSpawnFrequency)]. }
  unfold ToJsonLevel. f_equal.
  - exact Hk.
  - exact Hp.
  - apply (ptrIf_unwrap VString); [congruence|exact (Hf FName)].
  - apply (ptrIf_unwrap VInt); [congruence|exact (Hf FRows)].
  - apply (ptrIf_unwrap VInt); [congruence|exact (Hf FColumns)].
  - apply (ptrIf_unwrap VInt); [congruence|exact (Hf FHealth)].
  - apply (ptrIf_unwrap VInt); [congruence|exact (Hf FDuration)].
  - apply (ptrIf_unwrap VFloat); [congruence|exact (Hf FComboTimer)].
  - apply (ptrIf_unwrap VFloat); [congruence|exact (Hf FUnitDelayMultiplier)].
  - apply (ptrIf_unwrap VInt); [congruence|exact (Hf FMaxActiveUnits)].
  - apply (ptrIf_unwrap VFloat); [congruence|exact (Hf FSpawnsPerSecond)].
  - unfold ptrIf in Hspawn.
    destruct (HasSpawnFrequency v), (HasSpawnFrequency v'); congruence.
Qed.

Lemma ToJsonLevel_shows_set_fields_only_witness :
  tidyLevel <> untidyLevel /\ ToJsonLevel tidyLevel = ToJsonLevel untidyLevel.
Proof.
  split; [discriminate|].
  apply (ToJsonLevel_shows_set_fields_only tidyLevel untidyLevel); [|reflexivity..].
  intros f. by destruct f.
Defined.

(** * The territories resource *)


Module territories_facts.
Import territories.














Lemma Fresh_logCall (c : Call) (w : World) : Fresh w -> Fresh (logCall c w).
Proof. intros H. exact H. Qed.





End territories_facts.

(** * The cache package and its keys *)

(** X26. Cache keys never collide: the entity-cache key and the response-cache
    key of a level determine its id; no entity-cache key is a
    response-cache key; the listing key of either resource is the key of no
    single entity; and no key of the territories resource is a key of the
    levels resource. *)
Theorem cache_keys_never_collide (a b : string) :
  (GetCacheKey (levelEntryFor a) = GetCacheKey (levelEntryFor b) -> a = b) /\
  (GetCacheKey (responseEntryFor (buildResourcePath a))
   = GetCacheKey (responseEntryFor (buildResourcePath b)) -> a = b) /\
  (territories.GetCacheKey (territories.responseEntryFor (territories.buildResourcePath a))
   = territories.GetCacheKey (territories.responseEntryFor (territories.buildResourcePath b))
   -> a = b) /\
  GetCacheKey (levelEntryFor a) <> GetCacheKey (responseEntryFor (buildResourcePath b)) /\
  GetCacheKey (levelEntryFor a) <> GetCacheKey (responseEntryFor queryAllKey) /\
  GetCacheKey (responseEntryFor (buildResourcePath a))
  <> GetCacheKey (responseEntryFor queryAllKey) /\
  territories.GetCacheKey (territories.responseEntryFor (territories.buildResourcePath a))
  <> territories.GetCacheKey (territories.responseEntryFor territories.queryAllKey) /\
  (forall k,
     k = territories.GetCacheKey (territories.responseEntryFor (territories.buildResourcePath a))
     \/ k = territories.GetCacheKey (territories.responseEntryFor territories.queryAllKey) ->
     k <> GetCacheKey (levelEntryFor b) /\
     k <> GetCacheKey (responseEntryFor (buildResourcePath b)) /\
     k <> GetCacheKey (responseEntryFor queryAllKey)).
Proof.
  cbn. repeat split; try (intros H; by simplify_eq); try discriminate;
    destruct H as [-> | ->]; discriminate.
Qed.
